(** * LoginEveryForm: the login-attempt engine of [modules/browser_automation.py]
    and the worker loop of [main.py], embedded in Rocq.

    The browser, the OCR engine, the clock and the worker's stop flag are
    collaborators of the program, and so are the libraries it leans on:
    the console renderer of [rich], [pathlib], the character tables and
    the number formatting of the interpreter.  They are gathered in one
    interface, [Env]; every definition and theorem is stated for an
    arbitrary instance of it.  A coroutine of the source becomes a
    computation in a small monad that threads the state of the
    collaborators, carries the Python exception when one is raised, and
    records the calls that were issued, in the order in which they were
    issued.

    The logger.  [logger.py] hands every message of level INFO or above
    to a [RichHandler] built with [markup=True], and prints the messages
    of [success], [failed], [progress_info] and [credential_attempt] a
    second time on the console.  Rendering a message as console markup
    raises [MarkupError] when the message closes a tag that is not open,
    and neither the handler nor the logger catches it: the call to the
    logger raises.  This is modelled in [attempt_login] and in
    [batch_login], whose messages carry the URL and the usernames given
    by the caller and the text of the exception being handled.  A
    message of level DEBUG only reaches the log file, whose handler does
    not raise: these calls are left out.  The helpers that swallow their
    exceptions ([_verify_login_success], [_save_screenshot],
    [get_captcha_image], [solve_captcha], [solve_from_bytes], [stop]),
    and [start], only log, at level INFO or above, constants, the text
    of an exception raised by a collaborator and the text read by the
    OCR; the loaders log constants, numbers, such a text, and the path
    of the file and the name and title of the sheet, which belong to the
    file they are given: in the helpers and in the loaders the message
    is taken to render.  Of [logger.section] and [logger.summary], whose messages
    are made of constants and numbers, only the figures of the summary
    are kept.

    The exceptions are the instances of [Exception]; what derives from
    [BaseException] only (an interrupt, the cancellation of the task) is
    not raised by the collaborators. *)

From Stdlib Require Import String Ascii List ZArith Bool Arith Lia.
From Stdlib Require Import DecimalString.
Import ListNotations.
Open Scope string_scope.
Open Scope list_scope.

Set Implicit Arguments.

(** ** Strings

    A Python [str] is modelled by its UTF-8 encoding, a Rocq [string]
    of bytes: a character is a leading byte followed by its continuation
    bytes, those of the form [10xxxxxx].  Equality, concatenation and the
    substring tests ([in], [startswith]) are the same on the encodings as
    on the characters.  [lower] is the restriction of [str.lower] to
    ASCII.  It is only ever applied to [page.url], which the browser
    serialises in ASCII; moreover the three tokens searched in it are
    plain ASCII letters and the only non-ASCII letters that [str.lower]
    sends to an ASCII letter yield a [k], or an [i] followed by a
    combining mark, neither of which can complete [error], [login] or
    [signin]. *)

Definition lower_char (c : ascii) : ascii :=
  let n := nat_of_ascii c in
  if ((65 <=? n) && (n <=? 90))%nat then ascii_of_nat (n + 32) else c.

Fixpoint lower (s : string) : string :=
  match s with
  | EmptyString => EmptyString
  | String c t => String (lower_char c) (lower t)
  end.

(** [s.startswith(p)] *)
Fixpoint startswith (p s : string) : bool :=
  match p, s with
  | EmptyString, _ => true
  | String _ _, EmptyString => false
  | String a p', String b s' => Ascii.eqb a b && startswith p' s'
  end.

(** [needle in hay] on strings *)
Fixpoint contains (needle hay : string) : bool :=
  startswith needle hay ||
  match hay with
  | EmptyString => false
  | String _ t => contains needle t
  end.

(** [str.isalnum] on an ASCII character: digits and letters. *)
Definition isalnum_ascii (c : ascii) : bool :=
  let n := nat_of_ascii c in
  (((48 <=? n) && (n <=? 57)) || ((65 <=? n) && (n <=? 90)) ||
   ((97 <=? n) && (n <=? 122)))%nat.

Definition is_ascii (c : ascii) : bool := (nat_of_ascii c <? 128)%nat.

(** The bytes [10xxxxxx], which continue a character. *)
Definition is_continuation (c : ascii) : bool :=
  let n := nat_of_ascii c in ((128 <=? n) && (n <? 192))%nat.

(** The continuation bytes at the head of a string. *)
Fixpoint continuation_prefix (s : string) : string :=
  match s with
  | EmptyString => EmptyString
  | String c t =>
      if is_continuation c then String c (continuation_prefix t)
      else EmptyString
  end.

(** ["".join(ch for ch in s if keep(ch))].  [keep] is asked once for each
    character, at its leading byte and with the whole character; what it
    answers holds for the continuation bytes of the character, which
    [kept] carries along. *)
Fixpoint keep_characters (keep : string -> bool) (kept : bool) (s : string)
  : string :=
  match s with
  | EmptyString => EmptyString
  | String c t =>
      let kept := if is_continuation c then kept
                  else keep (String c (continuation_prefix t)) in
      if kept then String c (keep_characters keep kept t)
      else keep_characters keep kept t
  end.

(** [str(n)] for an integer *)
Definition str_of_int (n : Z) : string := NilZero.string_of_int (Z.to_int n).

(** Truthiness of an [Optional[str]]: [None] and the empty string are
    falsy.  [nonempty o] is the string of a truthy [o]. *)
Definition nonempty (o : option string) : option string :=
  match o with
  | Some EmptyString => None
  | Some s => Some s
  | None => None
  end.

Definition truthy (o : option string) : bool :=
  match nonempty o with Some _ => true | None => false end.

Definition is_some {A : Type} (o : option A) : bool :=
  match o with Some _ => true | None => false end.

(** ** Data model *)

Inductive LoginStatus : Type :=
| SUCCESS
| FAILED
| ERROR
| CAPTCHA_REQUIRED
| TIMEOUT
| ELEMENT_NOT_FOUND.

Definition LoginStatus_eqb (a b : LoginStatus) : bool :=
  match a, b with
  | SUCCESS, SUCCESS | FAILED, FAILED | ERROR, ERROR
  | CAPTCHA_REQUIRED, CAPTCHA_REQUIRED | TIMEOUT, TIMEOUT
  | ELEMENT_NOT_FOUND, ELEMENT_NOT_FOUND => true
  | _, _ => false
  end.

Record Credential : Type := {
  username : string;
  password : string;
  note : string
}.

Record LoginResult : Type := {
  status : LoginStatus;
  credential : Credential;
  url : string;
  message : string;
  screenshot_path : option string;
  timestamp : Z
}.

(** The dictionary returned by [detect_login_form]: four fixed keys. *)
Record Selectors : Type := {
  sel_username : option string;
  sel_password : option string;
  sel_captcha : option string;
  sel_submit : option string
}.

(** The fields of [BrowserAutomation] that the attempt reads. *)
Record BrowserAutomation : Type := {
  timeout : Z;
  screenshot_dir : string
}.

(** ** Collaborators *)

(** Handles on a page and on an element of its DOM. *)
Definition Page : Type := nat.
Definition Element : Type := nat.

(** Python exceptions, as far as the handlers of the source tell them
    apart: Playwright's [TimeoutError], and any other [Exception].  The
    string is [str(e)]. *)
Inductive exn : Type :=
| PlaywrightTimeout (msg : string)
| Exception (msg : string).

Inductive res (A : Type) : Type :=
| Ok (a : A)
| Raise (e : exn).
Arguments Ok {A} a.
Arguments Raise {A} e.

(** The calls that act on the collaborators.  Each may change their state
    and each may raise. *)
Inductive call : Type :=
| NewPage                                        (* context.new_page() *)
| SetDefaultTimeout (p : Page) (ms : Z)          (* page.set_default_timeout *)
| Goto (p : Page) (target : string)              (* page.goto *)
| WaitForLoadState (p : Page) (ms : Z)           (* page.wait_for_load_state *)
| Fill (p : Page) (selector value : string)      (* page.fill *)
| WaitForTimeout (p : Page) (ms : Z)             (* page.wait_for_timeout *)
| Click (p : Page) (selector : string)           (* page.click *)
| Press (p : Page) (selector key : string)       (* page.press *)
| Screenshot (p : Page) (path : string)          (* page.screenshot(path=..) *)
| ElementScreenshot (e : Element)                (* element.screenshot() *)
| Classification (image : list Byte.byte)        (* ocr.classification *)
| Close (p : Page).                              (* page.close() *)

Definition reply (c : call) : Type :=
  match c with
  | NewPage => Page
  | ElementScreenshot _ => list Byte.byte
  | Classification _ => string
  | _ => unit
  end.

(** What an execution leaves behind, oldest first: the calls issued, the
    DOM probes, the inter-attempt delays, the results handed to the
    [result] signal of the worker, the figures handed to
    [logger.summary], and what the worker found each time it read its
    flag [_is_running].  The messages to the logger are not kept. *)
Inductive event : Type :=
| Did (c : call)
| Probed (p : Page) (selector : string)
| Slept (ms : Z)
| ResultSignal (r : LoginResult)
| Summary (total success failed errors : nat)
| FlagRead (running : bool).

(** The collaborators.  [query] is [page.query_selector]: it reads the
    DOM of the current state and may raise.  [page_url] is the attribute
    [page.url], [clock] the whole seconds of [time.time()], [sleep] is
    [asyncio.sleep] with its argument kept in milliseconds, and
    [is_running] reads the flag [_is_running] of the worker, which the
    interface thread clears while the loop is suspended.

    The libraries.  [markup_error message] is what [rich] makes of a
    message that holds a bracket when it renders it as console markup:
    [None] when it renders, and the text of the [MarkupError] when it
    does not.  [joinpath d name] is [str(Path(d) / name)], whose
    separator and normal form depend on the platform.
    [isalnum_unicode ch] is [ch.isalnum()] for a character outside
    ASCII, given by its encoding.  [format_percentage current total] is
    the text of [current / total * 100], a float, under the format
    [.1f]. *)
Class Env : Type := {
  World : Type;
  perform : forall c : call, World -> res (reply c) * World;
  query : World -> Page -> string -> res (option Element);
  page_url : World -> Page -> string;
  clock : World -> Z;
  sleep : Z -> World -> World;
  is_running : World -> bool;
  markup_error : string -> option string;
  joinpath : string -> string -> string;
  isalnum_unicode : string -> bool;
  format_percentage : nat -> nat -> string
}.

(** ** The monad of coroutines *)

Section Engine.
Context {E : Env}.

Definition M (A : Type) : Type := World -> res A * World * list event.

Definition ret {A : Type} (a : A) : M A := fun w => (Ok a, w, []).

Definition bind {A B : Type} (m : M A) (k : A -> M B) : M B :=
  fun w =>
    let '(r, w1, t1) := m w in
    match r with
    | Ok a => let '(r2, w2, t2) := k a w1 in (r2, w2, t1 ++ t2)
    | Raise e => (Raise e, w1, t1)
    end.

(** [try: body except Exception as e: handler e] *)
Definition try_except {A : Type} (body : M A) (handler : exn -> M A) : M A :=
  fun w =>
    let '(r, w1, t1) := body w in
    match r with
    | Ok a => (Ok a, w1, t1)
    | Raise e => let '(r2, w2, t2) := handler e w1 in (r2, w2, t1 ++ t2)
    end.

(** [try: body finally: fin].  An exception of [fin] replaces the outcome
    of [body]. *)
Definition try_finally {A : Type} (body : M A) (fin : M unit) : M A :=
  fun w =>
    let '(r, w1, t1) := body w in
    let '(rf, w2, t2) := fin w1 in
    match rf with
    | Ok _ => (r, w2, t1 ++ t2)
    | Raise e => (Raise e, w2, t1 ++ t2)
    end.

(** [try: body except Exception: return fallback] *)
Definition or_else {A : Type} (body : M A) (fallback : A) : M A :=
  try_except body (fun _ => ret fallback).

Definition observe {A : Type} (f : World -> A) : M A :=
  fun w => (Ok (f w), w, []).

Definition emit (e : event) : M unit := fun w => (Ok tt, w, [e]).

Definition raise {A : Type} (e : exn) : M A := fun w => (Raise e, w, []).

(** Reading [self._is_running]. *)
Definition read_flag : M bool :=
  fun w => (Ok (is_running w), w, [FlagRead (is_running w)]).

Definition do_call (c : call) : M (reply c) :=
  fun w => let '(r, w1) := perform c w in (r, w1, [Did c]).

Definition query_selector (page : Page) (selector : string)
  : M (option Element) :=
  fun w => (query w page selector, w, [Probed page selector]).

Definition asyncio_sleep (ms : Z) : M unit :=
  fun w => (Ok tt, sleep ms w, [Slept ms]).

End Engine.

Declare Scope coroutine_scope.
Delimit Scope coroutine_scope with coroutine.
Notation "x <- m ;; k" := (bind m (fun x => k))
  (at level 61, m at next level, right associativity) : coroutine_scope.
Notation "m ;; k" := (bind m (fun _ => k))
  (at level 61, right associativity) : coroutine_scope.
Open Scope coroutine_scope.

(** ** The program *)

Section Program.
Context {E : Env}.

(** The calls whose answer the program reads. *)
Definition new_page : M Page := do_call NewPage.
Definition element_screenshot (e : Element) : M (list Byte.byte) :=
  do_call (ElementScreenshot e).
Definition classification (image : list Byte.byte) : M string :=
  do_call (Classification image).

(** *** The logger ([logger.py])

    Rendering: a message with no bracket holds no markup and renders;
    for the others [rich] decides. *)
Definition rendering (message : string) : option string :=
  if contains "[" message then markup_error message else None.

(** A message handed to the console handler, or printed on the console.
    [MarkupError] derives from [Exception]. *)
Definition render (message : string) : M unit :=
  match rendering message with
  | Some text => raise (Exception text)
  | None => ret tt
  end.

(** [logger.info], [logger.warning], [logger.error]: the record goes to
    the file handler, which does not raise, and to the console handler,
    which renders the message. *)
Definition logger_info (message : string) : M unit := render message.
Definition logger_warning (message : string) : M unit := render message.
Definition logger_error (message : string) : M unit := render message.

(** [logger.success], [logger.failed]: the message is logged, then
    printed on the console after a mark. *)
Definition success_mark (message : string) : string :=
  "[bold green]✓[/bold green] " ++ message.

Definition failed_mark (message : string) : string :=
  "[bold red]✗[/bold red] " ++ message.

Definition logger_success (message : string) : M unit :=
  logger_info message;;
  render (success_mark message).

Definition logger_failed (message : string) : M unit :=
  logger_error message;;
  render (failed_mark message).

(** [logger.progress_info] *)
Definition progress_line (current total : nat) (message : string) : string :=
  let percentage :=
    if (0 <? total)%nat then format_percentage current total else "0.0" in
  "[" ++ str_of_int (Z.of_nat current) ++ "/" ++ str_of_int (Z.of_nat total)
  ++ "] (" ++ percentage ++ "%) " ++ message.

Definition progress_mark (current total : nat) (message : string) : string :=
  "[cyan][[/cyan][yellow]" ++ str_of_int (Z.of_nat current) ++
  "[/yellow][cyan]/[/cyan][yellow]" ++ str_of_int (Z.of_nat total) ++
  "[/yellow][cyan]][/cyan] " ++ message.

Definition progress_info (current total : nat) (message : string) : M unit :=
  logger_info (progress_line current total message);;
  render (progress_mark current total message).

(** [logger.credential_attempt]; [status] is the value of the status. *)
Definition status_value (st : LoginStatus) : string :=
  match st with
  | SUCCESS => "SUCCESS"
  | FAILED => "FAILED"
  | ERROR => "ERROR"
  | CAPTCHA_REQUIRED => "CAPTCHA_REQUIRED"
  | TIMEOUT => "TIMEOUT"
  | ELEMENT_NOT_FOUND => "ELEMENT_NOT_FOUND"
  end.

Definition status_color (status_text : string) : string :=
  if (status_text =? "SUCCESS")%string then "green"
  else if (status_text =? "FAILED")%string then "red"
  else if (status_text =? "ERROR")%string then "yellow"
  else if (status_text =? "CAPTCHA_REQUIRED")%string then "magenta"
  else "white".

Definition attempt_line (target user status_text : string) : string :=
  "URL: " ++ target ++ " | Username: " ++ user ++ " | Status: " ++ status_text.

Definition attempt_mark (target user status_text : string) : string :=
  let color := status_color status_text in
  "[" ++ color ++ "]● " ++ user ++ "[/" ++ color ++ "] @ [dim]" ++ target ++
  "[/dim] → [" ++ color ++ "]" ++ status_text ++ "[/" ++ color ++ "]".

Definition credential_attempt (target user status_text : string) : M unit :=
  logger_info (attempt_line target user status_text);;
  render (attempt_mark target user status_text).

(** [LoginResult.__init__]: the timestamp is read when the result is
    built. *)
Definition LoginResult_init (st : LoginStatus) (c : Credential)
  (target msg : string) (shot : option string) : M LoginResult :=
  now <- observe clock;;
  ret {| status := st; credential := c; url := target; message := msg;
         screenshot_path := shot; timestamp := now |}.

(** *** [detect_login_form] *)

Definition username_patterns : list string :=
  [ "input[type='text'][name*='user']";
    "input[type='text'][name*='login']";
    "input[type='text'][name*='account']";
    "input[type='email']";
    "input[type='text'][id*='user']";
    "input[type='text'][id*='login']";
    "input[type='text'][id*='account']";
    "input[name='username']";
    "input[name='email']";
    "input[placeholder*='用户']";
    "input[placeholder*='账号']";
    "input[placeholder*='邮箱']";
    "input[placeholder*='username']";
    "input[placeholder*='email']" ].

Definition password_patterns : list string :=
  [ "input[type='password']";
    "input[name*='pass']";
    "input[id*='pass']";
    "input[placeholder*='密码']";
    "input[placeholder*='password']" ].

Definition captcha_patterns : list string :=
  [ "input[name*='captcha']";
    "input[name*='code']";
    "input[name*='verify']";
    "input[id*='captcha']";
    "input[id*='code']";
    "input[id*='verify']";
    "input[placeholder*='验证码']";
    "input[placeholder*='captcha']";
    "input[placeholder*='code']" ].

Definition submit_patterns : list string :=
  [ "button[type='submit']";
    "input[type='submit']";
    "button:has-text('登录')";
    "button:has-text('登錄')";
    "button:has-text('Login')";
    "button:has-text('Sign in')";
    "button:has-text('Sign In')";
    "button[name*='login']";
    "button[id*='login']";
    "input[value*='登录']";
    "input[value*='Login']" ].

(** The loop that [detect_login_form] runs once per role:
[[
    for pattern in patterns:
        try:
            element = await page.query_selector(pattern)
            if element:
                selectors[role] = pattern
                break
        except:
            continue
]]
    The value is what the loop leaves in [selectors[role]]. *)
Fixpoint detect_role (page : Page) (patterns : list string)
  : M (option string) :=
  match patterns with
  | [] => ret None
  | pattern :: rest =>
      found <- try_except
                 (element <- query_selector page pattern;;
                  ret (is_some element))
                 (fun _ => ret false);;
      if found then ret (Some pattern) else detect_role page rest
  end.

Definition no_selectors : Selectors :=
  {| sel_username := None; sel_password := None;
     sel_captcha := None; sel_submit := None |}.

(** The handler of the enclosing [try] returns the dictionary as the
    loops have filled it so far; each [or_else] below carries the
    dictionary of that point. *)
Definition detect_login_form (page : Page) : M Selectors :=
  or_else
    (u <- detect_role page username_patterns;;
     or_else
       (p <- detect_role page password_patterns;;
        or_else
          (c <- detect_role page captcha_patterns;;
           or_else
             (s <- detect_role page submit_patterns;;
              ret {| sel_username := u; sel_password := p;
                     sel_captcha := c; sel_submit := s |})
             {| sel_username := u; sel_password := p;
                sel_captcha := c; sel_submit := None |})
          {| sel_username := u; sel_password := p;
             sel_captcha := None; sel_submit := None |})
       {| sel_username := u; sel_password := None;
          sel_captcha := None; sel_submit := None |})
    no_selectors.

(** *** [get_captcha_image], [solve_captcha] *)

Definition captcha_image_patterns : list string :=
  [ "img[src*='captcha']";
    "img[src*='code']";
    "img[src*='verify']";
    "img[alt*='验证码']";
    "img[alt*='captcha']";
    "#captcha-image";
    ".captcha-image" ].

(** The search loop of [get_captcha_image]; no handler inside it. *)
Fixpoint find_captcha_image (page : Page) (captcha_selector : option string)
  (patterns : list string) : M (option string) :=
  match patterns with
  | [] => ret captcha_selector
  | pattern :: rest =>
      captcha_element <- query_selector page pattern;;
      if is_some captcha_element then ret (Some pattern)
      else find_captcha_image page captcha_selector rest
  end.

Definition get_captcha_image (page : Page) (captcha_selector : option string)
  : M (option (list Byte.byte)) :=
  or_else
    (captcha_selector <-
       (if negb (truthy captcha_selector)
        then find_captcha_image page captcha_selector captcha_image_patterns
        else ret captcha_selector);;
     match nonempty captcha_selector with
     | None => ret None
     | Some selector =>
         captcha_element <- query_selector page selector;;
         match captcha_element with
         | Some element =>
             image_bytes <- element_screenshot element;;
             ret (Some image_bytes)
         | None => ret None
         end
     end)
    None.

(** [CaptchaSolver.solve_from_bytes] *)
Definition solve_from_bytes (image_bytes : list Byte.byte)
  : M (option string) :=
  or_else
    (result <- classification image_bytes;;
     ret (Some result))
    None.

Definition solve_captcha (page : Page) (captcha_selector : option string)
  : M (option string) :=
  or_else
    (image_bytes <- get_captcha_image page captcha_selector;;
     match image_bytes with
     | None | Some [] => ret None
     | Some bytes => solve_from_bytes bytes
     end)
    None.

(** *** [_save_screenshot] *)

(** [ch.isalnum()] for a character: the digits and the letters of ASCII,
    and what the tables of Unicode say of the other characters. *)
Definition isalnum (ch : string) : bool :=
  match ch with
  | EmptyString => false
  | String c _ => if is_ascii c then isalnum_ascii c else isalnum_unicode ch
  end.

(** ["".join(c for c in username if c.isalnum() or c in "-_")] *)
Definition safe_username (user : string) : string :=
  keep_characters (fun ch => isalnum ch || contains ch "-_") false user.

(** The name of the file: [f"{safe_username}_{timestamp}_{suffix}.png"]. *)
Definition screenshot_name (user : string) (now : Z) (suffix : string)
  : string :=
  safe_username user ++ "_" ++ str_of_int now ++ "_" ++ suffix ++ ".png".

(** [self.screenshot_dir] is a [Path]; it is kept as the text it was
    built from. *)
Definition _save_screenshot (self : BrowserAutomation) (page : Page)
  (user suffix : string) : M string :=
  try_except
    (now <- observe clock;;
     let filename := screenshot_name user now suffix in
     let filepath := joinpath (screenshot_dir self) filename in
     do_call (Screenshot page filepath);;
     ret filepath)
    (fun _ => ret "").

(** *** [_verify_login_success] *)

Definition error_patterns : list string :=
  [ "text=/错误|失败|error|failed|invalid|incorrect/i";
    ".error";
    ".alert-error";
    ".alert-danger";
    "#error" ].

Definition success_patterns : list string :=
  [ "text=/欢迎|welcome|dashboard|home|profile/i";
    ".user-menu";
    ".profile";
    "#dashboard" ].

(** The first test of the classifier:
    [current_url != original_url and not any(err in current_url.lower()
     for err in ['error', 'login', 'signin'])]. *)
Definition url_changed (current_url original_url : string) : bool :=
  negb (current_url =? original_url)%string &&
  negb (existsb (fun err => contains err (lower current_url))
          ["error"; "login"; "signin"]).

(** [for pattern in patterns: if await page.query_selector(pattern):
    return ...]: whether the loop returns. *)
Fixpoint any_present (page : Page) (patterns : list string) : M bool :=
  match patterns with
  | [] => ret false
  | pattern :: rest =>
      element <- query_selector page pattern;;
      if is_some element then ret true else any_present page rest
  end.

(** The test on the caller's success indicator (second layer). *)
Definition indicator_matches (page : Page) (current_url : string)
  (success_indicator : option string) : M bool :=
  match nonempty success_indicator with
  | Some indicator =>
      if startswith "http" indicator
      then ret (contains indicator current_url)
      else element <- query_selector page indicator;;
           ret (is_some element)
  | None => ret false
  end.

Definition username_field_probe : string :=
  "input[type='text'], input[type='email']".

Definition _verify_login_success (page : Page) (original_url : string)
  (success_indicator : option string) : M bool :=
  or_else
    (current_url <- observe (fun w => page_url w page);;
     if url_changed current_url original_url then ret true else
     matched <- indicator_matches page current_url success_indicator;;
     if matched then ret true else
     failed <- any_present page error_patterns;;
     if failed then ret false else
     welcomed <- any_present page success_patterns;;
     if welcomed then ret true else
     username_field <- query_selector page username_field_probe;;
     if is_some username_field then ret false else
     ret (negb (current_url =? original_url)%string))
    false.

(** *** [attempt_login] *)

(** Outcome of a computation as a value: used where the source assigns
    the result of an awaited call to a local that the handlers read. *)
Definition attempt {A : Type} (m : M A) : M (res A) :=
  fun w => let '(r, w1, t) := m w in (Ok r, w1, t).

(** Lines 375-380: the page is configured and driven to the login form. *)
Definition navigate (self : BrowserAutomation) (page : Page)
  (target : string) : M unit :=
  do_call (SetDefaultTimeout page (timeout self));;
  logger_info ("Navigating to: " ++ target);;
  do_call (Goto page target);;
  do_call (WaitForLoadState page (timeout self)).

(** Lines 382-394: selectors left out by the caller are taken from the
    detection, which runs only when the username or the password selector
    is missing. *)
Definition resolve_selectors (page : Page)
  (username_selector password_selector captcha_selector submit_selector
     : option string) : M Selectors :=
  if negb (truthy username_selector) || negb (truthy password_selector)
  then
    detected <- detect_login_form page;;
    ret {| sel_username := if truthy username_selector then username_selector
                           else sel_username detected;
           sel_password := if truthy password_selector then password_selector
                           else sel_password detected;
           sel_captcha := if truthy captcha_selector then captcha_selector
                          else sel_captcha detected;
           sel_submit := if truthy submit_selector then submit_selector
                         else sel_submit detected |}
  else
    ret {| sel_username := username_selector;
           sel_password := password_selector;
           sel_captcha := captcha_selector;
           sel_submit := submit_selector |}.

(** Lines 402-410. *)
Definition fill_credentials (page : Page) (username_selector
  password_selector : string) (c : Credential) : M unit :=
  do_call (Fill page username_selector (username c));;
  do_call (WaitForTimeout page 500);;
  do_call (Fill page password_selector (password c));;
  do_call (WaitForTimeout page 500).

(** Lines 426-452. *)
Definition submit_and_classify (self : BrowserAutomation) (page : Page)
  (target : string) (c : Credential) (password_selector : string)
  (submit_selector success_indicator : option string)
  (wait_after_submit : Z) : M LoginResult :=
  match nonempty submit_selector with
  | Some selector => do_call (Click page selector)
  | None => do_call (Press page password_selector "Enter")
  end;;
  do_call (WaitForTimeout page wait_after_submit);;
  shot <- _save_screenshot self page (username c) "after_submit";;
  is_success <- _verify_login_success page target success_indicator;;
  if is_success
  then
    logger_success ("✓ " ++ username c ++ " @ " ++ target);;
    LoginResult_init SUCCESS c target "Login successful" (Some shot)
  else
    logger_failed ("✗ " ++ username c ++ " @ " ++ target);;
    LoginResult_init FAILED c target
      "Login failed - incorrect credentials or other error" (Some shot).

(** The body of the [try] once the page exists (lines 375-452). *)
Definition attempt_steps (self : BrowserAutomation) (page : Page)
  (target : string) (c : Credential)
  (username_selector password_selector captcha_selector submit_selector
     success_indicator : option string)
  (wait_after_submit : Z) : M LoginResult :=
  navigate self page target;;
  sels <- resolve_selectors page username_selector password_selector
            captcha_selector submit_selector;;
  match nonempty (sel_username sels), nonempty (sel_password sels) with
  | Some user_sel, Some pass_sel =>
      fill_credentials page user_sel pass_sel c;;
      match nonempty (sel_captcha sels) with
      | Some captcha_sel =>
          logger_info "Captcha field detected, attempting to solve...";;
          captcha_text <- solve_captcha page None;;
          match nonempty captcha_text with
          | Some text =>
              do_call (Fill page captcha_sel text);;
              do_call (WaitForTimeout page 500);;
              submit_and_classify self page target c pass_sel
                (sel_submit sels) success_indicator wait_after_submit
          | None =>
              logger_warning "Failed to solve captcha";;
              shot <- _save_screenshot self page (username c)
                        "captcha_failed";;
              LoginResult_init CAPTCHA_REQUIRED c target
                "Failed to solve captcha" (Some shot)
          end
      | None =>
          submit_and_classify self page target c pass_sel
            (sel_submit sels) success_indicator wait_after_submit
      end
  | _, _ =>
      logger_error "Username or password field not found";;
      LoginResult_init ELEMENT_NOT_FOUND c target
        "Username or password field not found" None
  end.

(** The message of the two [except] clauses: [f"Timeout: {str(e)}"] and
    [f"Error: {str(e)}"]. *)
Definition handler_message (e : exn) : string :=
  match e with
  | PlaywrightTimeout text => "Timeout: " ++ text
  | Exception text => "Error: " ++ text
  end.

(** The two [except] clauses.  [page] is the local of that name: [None]
    when [new_page] itself raised.  The message is logged first: when
    that raises, the clause is left at once. *)
Definition on_exception (self : BrowserAutomation) (page : option Page)
  (target : string) (c : Credential) (e : exn) : M LoginResult :=
  match e with
  | PlaywrightTimeout text =>
      logger_error ("Timeout: " ++ text);;
      shot <- match page with
              | Some p =>
                  path <- _save_screenshot self p (username c) "timeout";;
                  ret (Some path)
              | None => ret None
              end;;
      LoginResult_init TIMEOUT c target ("Timeout: " ++ text)%string shot
  | Exception text =>
      logger_error ("Error: " ++ text);;
      shot <- match page with
              | Some p =>
                  path <- _save_screenshot self p (username c) "error";;
                  ret (Some path)
              | None => ret None
              end;;
      LoginResult_init ERROR c target ("Error: " ++ text)%string shot
  end.

(** [page = await self.context.new_page()] is the first statement of the
    [try]: when it raises, the handler runs with [page = None] and the
    [finally] has nothing to close; otherwise the rest of the [try], its
    handlers and the [finally] all see the page. *)
Definition attempt_login (self : BrowserAutomation) (target : string)
  (c : Credential)
  (username_selector password_selector captcha_selector submit_selector
     success_indicator : option string)
  (wait_after_submit : Z) : M LoginResult :=
  opened <- attempt new_page;;
  match opened with
  | Raise e => on_exception self None target c e
  | Ok page =>
      try_finally
        (try_except
           (attempt_steps self page target c username_selector
              password_selector captcha_selector submit_selector
              success_indicator wait_after_submit)
           (on_exception self (Some page) target c))
        (do_call (Close page))
  end.

(** *** [batch_login] *)

Definition count_status (p : LoginStatus -> bool) (results : list LoginResult)
  : nat :=
  length (filter (fun r => p (status r)) results).

(** The [for] loop; [idx] is the counter of [enumerate(credentials, 1)].
    The two calls to the logger are outside any [try]. *)
Fixpoint batch_login_loop (self : BrowserAutomation) (target : string)
  (username_selector password_selector captcha_selector submit_selector
     success_indicator : option string)
  (delay_between_attempts : Z) (total idx : nat)
  (credentials : list Credential) (results : list LoginResult)
  : M (list LoginResult) :=
  match credentials with
  | [] => ret results
  | c :: rest =>
      progress_info idx total ("Testing: " ++ username c);;
      result <- attempt_login self target c username_selector
                  password_selector captcha_selector submit_selector
                  success_indicator 3000;;
      let results := results ++ [result] in
      credential_attempt target (username c) (status_value (status result));;
      (if (idx <? total)%nat then asyncio_sleep delay_between_attempts
       else ret tt);;
      batch_login_loop self target username_selector password_selector
        captcha_selector submit_selector success_indicator
        delay_between_attempts total (S idx) rest results
  end.

Definition batch_login (self : BrowserAutomation) (target : string)
  (credentials : list Credential)
  (username_selector password_selector captcha_selector submit_selector
     success_indicator : option string)
  (delay_between_attempts : Z) : M (list LoginResult) :=
  let total := length credentials in
  results <- batch_login_loop self target username_selector
               password_selector captcha_selector submit_selector
               success_indicator delay_between_attempts total 1
               credentials [];;
  let success_count := count_status (LoginStatus_eqb SUCCESS) results in
  let failed_count := count_status (LoginStatus_eqb FAILED) results in
  let error_count :=
    count_status
      (fun s => existsb (LoginStatus_eqb s) [ERROR; TIMEOUT; ELEMENT_NOT_FOUND])
      results in
  emit (Summary total success_count failed_count error_count);;
  ret results.

(** *** [LoginWorker._async_run] (main.py)

    The loop of lines 83-109, between the start and the stop of the
    browser; its value is the list handed to the [finished] signal.  The
    flag is read at the top of the loop and, when the list goes on,
    after the attempt ([idx < total and self._is_running]).  The loop
    does not call the logger. *)
Fixpoint _async_run_loop (automation : BrowserAutomation) (target : string)
  (username_selector password_selector captcha_selector submit_selector
     success_indicator : option string)
  (delay : Z) (total idx : nat)
  (credentials : list Credential) (results : list LoginResult)
  : M (list LoginResult) :=
  match credentials with
  | [] => ret results
  | c :: rest =>
      running <- read_flag;;
      if negb running then ret results else
      result <- attempt_login automation target c username_selector
                  password_selector captcha_selector submit_selector
                  success_indicator 3000;;
      let results := results ++ [result] in
      emit (ResultSignal result);;
      (if (idx <? total)%nat
       then running <- read_flag;;
            if running then asyncio_sleep delay else ret tt
       else ret tt);;
      _async_run_loop automation target username_selector password_selector
        captcha_selector submit_selector success_indicator delay total
        (S idx) rest results
  end.

Definition _async_run (automation : BrowserAutomation) (target : string)
  (credentials : list Credential)
  (username_selector password_selector captcha_selector submit_selector
     success_indicator : option string)
  (delay : Z) : M (list LoginResult) :=
  _async_run_loop automation target username_selector password_selector
    captcha_selector submit_selector success_indicator delay
    (length credentials) 1 credentials [].

End Program.

(** ** Vocabulary of the statements *)

Section Vocabulary.
Context {E : Env}.

(** Outcome, final state and events of a run. *)
Definition outcome {A : Type} (run : res A * World * list event) : res A :=
  fst (fst run).
Definition final {A : Type} (run : res A * World * list event) : World :=
  snd (fst run).
Definition events {A : Type} (run : res A * World * list event) : list event :=
  snd run.

(** A probe hits when it returns an element; a probe that raises does
    not. *)
Definition probe_hits (w : World) (page : Page) (pattern : string) : bool :=
  match query w page pattern with
  | Ok (Some _) => true
  | _ => false
  end.

(** Releasing a page does not raise. *)
Definition page_close_succeeds : Prop :=
  forall (p : Page) (w : World), exists w', perform (Close p) w = (Ok tt, w').

(** The flag [_is_running] is never cleared. *)
Definition never_cancelled : Prop :=
  forall w : World, is_running w = true.

(** A computation that leaves the collaborators as they are. *)
Definition stays {A : Type} (m : M A) : Prop :=
  forall w, final (m w) = w.

(** A computation that does not raise. *)
Definition returns {A : Type} (m : M A) : Prop :=
  forall w, exists a, outcome (m w) = Ok a.

(** A computation all of whose events pass a test. *)
Definition quiet {A : Type} (P : event -> bool) (m : M A) : Prop :=
  forall w, forallb P (events (m w)) = true.

(** A computation whose value, when it returns one, satisfies [Q]. *)
Definition ensures {A : Type} (Q : A -> Prop) (m : M A) : Prop :=
  forall w a w1 t, m w = (Ok a, w1, t) -> Q a.

(** A computation whose exception, when it raises one, satisfies [Q]. *)
Definition throws {A : Type} (Q : exn -> Prop) (m : M A) : Prop :=
  forall w e w1 t, m w = (Raise e, w1, t) -> Q e.

(** A message that renders. *)
Definition renders (message : string) : bool :=
  match rendering message with
  | None => true
  | Some _ => false
  end.

(** Whatever the browser and the OCR raise, the message that the
    handlers of [attempt_login] make of it renders. *)
Definition failures_render : Prop :=
  forall (c : call) (w : World) (e : exn) (w1 : World),
    perform c w = (Raise e, w1) -> renders (handler_message e) = true.

(** The messages of [attempt_login] that carry the URL and the username:
    the navigation, and the two lines of either verdict. *)
Definition attempt_messages (target : string) (c : Credential)
  : list string :=
  [ "Navigating to: " ++ target;
    "✓ " ++ username c ++ " @ " ++ target;
    success_mark ("✓ " ++ username c ++ " @ " ++ target);
    "✗ " ++ username c ++ " @ " ++ target;
    failed_mark ("✗ " ++ username c ++ " @ " ++ target) ]%string.

Definition statuses : list LoginStatus :=
  [SUCCESS; FAILED; ERROR; CAPTCHA_REQUIRED; TIMEOUT; ELEMENT_NOT_FOUND].

(** The messages of [batch_login] for the credentials from the [idx]-th
    on: those of its own two calls to the logger, for any status of the
    result, and those of the attempts. *)
Fixpoint batch_messages (target : string) (total idx : nat)
  (credentials : list Credential) : list string :=
  match credentials with
  | [] => []
  | c :: rest =>
      [ progress_line idx total ("Testing: " ++ username c);
        progress_mark idx total ("Testing: " ++ username c) ] ++
      attempt_messages target c ++
      flat_map (fun st =>
                  [ attempt_line target (username c) (status_value st);
                    attempt_mark target (username c) (status_value st) ])
        statuses ++
      batch_messages target total (S idx) rest
  end.

End Vocabulary.

(** The value of a run that returned one. *)
Definition results_of {A : Type} (r : res A) : option A :=
  match r with Ok a => Some a | Raise _ => None end.

Definition status_of (r : res LoginResult) : option LoginStatus :=
  option_map status (results_of r).

Definition is_fill (e : event) : bool :=
  match e with Did (Fill _ _ _) => true | _ => false end.


(** Opening and closing of pages. *)
Definition is_lifecycle (e : event) : bool :=
  match e with Did NewPage | Did (Close _) => true | _ => false end.

(** The events that the body of an attempt and its handlers may leave:
    probes, and calls other than the opening and the closing of a page. *)
Definition inside_attempt (e : event) : bool :=
  match e with
  | Did NewPage | Did (Close _) => false
  | Did _ | Probed _ _ => true
  | Slept _ | ResultSignal _ | Summary _ _ _ _ | FlagRead _ => false
  end.

Definition no_fill (e : event) : bool := negb (is_fill e).


(** A test that rejects no probe. *)
Definition blind_to_probes (P : event -> bool) : Prop :=
  forall page selector, P (Probed page selector) = true.

(** An attempt starts with its call to [new_page]; a delay is a [Slept].
    [marks] keeps these two kinds of events. *)
Definition is_mark (e : event) : bool :=
  match e with Did NewPage | Slept _ => true | _ => false end.

Definition marks (evs : list event) : list event := filter is_mark evs.

(** [n] attempts with a delay between any two of them and nowhere else. *)
Fixpoint interleaved (delay : Z) (n : nat) : list event :=
  match n with
  | O => []
  | S m =>
      Did NewPage ::
      match m with
      | O => []
      | S _ => Slept delay :: interleaved delay m
      end
  end.

(** The results handed to the [result] signal, in order. *)
Fixpoint signals (evs : list event) : list LoginResult :=
  match evs with
  | [] => []
  | ResultSignal r :: rest => r :: signals rest
  | _ :: rest => signals rest
  end.

(** The worker, as seen from outside: its readings of the flag, the
    pages it opens, the results it signals and its delays. *)
Definition is_step (e : event) : bool :=
  match e with
  | Did NewPage | Slept _ | ResultSignal _ | FlagRead _ => true
  | _ => false
  end.

Definition steps (evs : list event) : list event := filter is_step evs.

(** The steps of a worker for the results it hands over: each attempt
    follows a reading that found the flag set, and two consecutive
    attempts are separated by a second such reading and the delay. *)
Fixpoint attempts_and_delays (delay : Z) (results : list LoginResult)
  : list event :=
  match results with
  | [] => []
  | r :: rest =>
      FlagRead true :: Did NewPage :: ResultSignal r ::
      match rest with
      | [] => []
      | _ :: _ =>
          FlagRead true :: Slept delay :: attempts_and_delays delay rest
      end
  end.

(** The four roles of [detect_login_form], to speak of them uniformly. *)
Inductive Role : Type := RoleUsername | RolePassword | RoleCaptcha | RoleSubmit.

Definition patterns_of (r : Role) : list string :=
  match r with
  | RoleUsername => username_patterns
  | RolePassword => password_patterns
  | RoleCaptcha => captcha_patterns
  | RoleSubmit => submit_patterns
  end.

Definition selector_of (r : Role) (s : Selectors) : option string :=
  match r with
  | RoleUsername => sel_username s
  | RolePassword => sel_password s
  | RoleCaptcha => sel_captcha s
  | RoleSubmit => sel_submit s
  end.

(** No two patterns of a list are equal. *)
Fixpoint distinct (l : list string) : bool :=
  match l with
  | [] => true
  | x :: rest => negb (existsb (String.eqb x) rest) && distinct rest
  end.


(** ** A scripted environment, to run the program on examples *)

Record Script : Type := {
  at_url : string;            (* page.url *)
  landing : string;           (* where a click or a key press leads *)
  dom : list string;          (* the selectors that match an element *)
  broken : list string;       (* the selectors whose probe raises *)
  slow : bool;                (* page.goto times out *)
  ocr_text : option string;   (* what the OCR reads; None: it raises *)
  seconds : Z;                (* time.time() *)
  running : bool;             (* _is_running *)
  stop_in_delay : bool        (* Stop is pressed during the next delay *)
}.

(** A renderer that knows one malformed piece of markup: it refuses the
    messages that hold the closing tag [[/b]]. *)
Definition script_markup_error (message : string) : option string :=
  if contains "[/b]" message
  then Some "closing tag '[/b]' doesn't match any open tag"
  else None.

(** Tenths of a percent, rounded. *)
Definition script_percentage (current total : nat) : string :=
  let tenths := ((current * 1000 + total / 2) / total)%nat in
  str_of_int (Z.of_nat (tenths / 10)) ++ "." ++
  str_of_int (Z.of_nat (tenths mod 10)).

Definition script_goto (w : Script) (target : string) : Script :=
  {| at_url := target; landing := landing w; dom := dom w;
     broken := broken w; slow := slow w; ocr_text := ocr_text w;
     seconds := seconds w; running := running w;
     stop_in_delay := stop_in_delay w |}.

Definition script_perform (c : call) : Script -> res (reply c) * Script :=
  match c as c0 return Script -> res (reply c0) * Script with
  | NewPage => fun w => (Ok 7, w)
  | Goto _ target => fun w =>
      if slow w then (Raise (PlaywrightTimeout "Page.goto: Timeout exceeded"), w)
      else (Ok tt, script_goto w target)
  | Click _ _ => fun w => (Ok tt, script_goto w (landing w))
  | Press _ _ _ => fun w => (Ok tt, script_goto w (landing w))
  | ElementScreenshot _ => fun w => (Ok [Byte.x89; Byte.x50], w)
  | Classification _ => fun w =>
      match ocr_text w with
      | Some text => (Ok text, w)
      | None => (Raise (Exception "ocr"), w)
      end
  | SetDefaultTimeout _ _ => fun w => (Ok tt, w)
  | WaitForLoadState _ _ => fun w => (Ok tt, w)
  | Fill _ _ _ => fun w => (Ok tt, w)
  | WaitForTimeout _ _ => fun w => (Ok tt, w)
  | Screenshot _ _ => fun w => (Ok tt, w)
  | Close _ => fun w => (Ok tt, w)
  end.

Definition script_query (w : Script) (_ : Page) (selector : string)
  : res (option Element) :=
  if existsb (String.eqb selector) (broken w) then Raise (Exception "probe")
  else if existsb (String.eqb selector) (dom w) then Ok (Some 1)
  else Ok None.

Definition script_sleep (ms : Z) (w : Script) : Script :=
  {| at_url := at_url w; landing := landing w; dom := dom w;
     broken := broken w; slow := slow w; ocr_text := ocr_text w;
     seconds := seconds w + ms / 1000;
     running := running w && negb (stop_in_delay w);
     stop_in_delay := stop_in_delay w |}.

Definition scripted : Env := {|
  World := Script;
  perform := script_perform;
  query := script_query;
  page_url := fun w _ => at_url w;
  clock := seconds;
  sleep := script_sleep;
  is_running := running;
  markup_error := script_markup_error;
  joinpath := fun d name => (d ++ "/" ++ name)%string;
  isalnum_unicode := fun ch => (ch =? "é")%string;
  format_percentage := script_percentage
|}.

Definition automation0 : BrowserAutomation :=
  {| timeout := 30000; screenshot_dir := "screenshots" |}.

Definition alice : Credential :=
  {| username := "alice"; password := "hunter2"; note := "" |}.
Definition bob : Credential :=
  {| username := "bob"; password := "s3cret"; note := "" |}.

(** A username that closes a tag of console markup. *)
Definition mallory : Credential :=
  {| username := "admin[/b]"; password := "x"; note := "" |}.

(** A login form at [/login] with no captcha, staying put on submission. *)
Definition plain_form : Script :=
  {| at_url := "about:blank"; landing := "http://site.test/login";
     dom := ["input[name='username']"; "input[type='password']";
             "button[type='submit']"];
     broken := []; slow := false; ocr_text := None; seconds := 1700000000;
     running := true; stop_in_delay := false |}.

Definition set_dom (w : Script) (d : list string) : Script :=
  {| at_url := at_url w; landing := landing w; dom := d;
     broken := broken w; slow := slow w; ocr_text := ocr_text w;
     seconds := seconds w; running := running w;
     stop_in_delay := stop_in_delay w |}.

Definition set_landing (w : Script) (target : string) : Script :=
  {| at_url := at_url w; landing := target; dom := dom w;
     broken := broken w; slow := slow w; ocr_text := ocr_text w;
     seconds := seconds w; running := running w;
     stop_in_delay := stop_in_delay w |}.

Definition set_broken (w : Script) (b : list string) : Script :=
  {| at_url := at_url w; landing := landing w; dom := dom w;
     broken := b; slow := slow w; ocr_text := ocr_text w;
     seconds := seconds w; running := running w;
     stop_in_delay := stop_in_delay w |}.

Definition set_stop_in_delay (w : Script) (b : bool) : Script :=
  {| at_url := at_url w; landing := landing w; dom := dom w;
     broken := broken w; slow := slow w; ocr_text := ocr_text w;
     seconds := seconds w; running := running w;
     stop_in_delay := b |}.

Definition set_slow (w : Script) (b : bool) : Script :=
  {| at_url := at_url w; landing := landing w; dom := dom w;
     broken := broken w; slow := b; ocr_text := ocr_text w;
     seconds := seconds w; running := running w;
     stop_in_delay := stop_in_delay w |}.

Definition login_url : string := "http://site.test/login".

(** The form of [plain_form], leading to [/dashboard] on submission. *)
Definition welcoming_form : Script :=
  set_landing plain_form "http://site.test/dashboard".

(** A site that does not answer in time. *)
Definition slow_site : Script := set_slow plain_form true.

(** After a submission the page sits at [/dashboard]; nothing in its DOM
    is known to the classifier. *)
Definition at_dashboard : Script :=
  set_dom (script_goto plain_form "http://site.test/dashboard") [].

(** After a submission the page sits at [/login?failed=1], with an empty
    DOM as far as the classifier can tell. *)
Definition at_login_again : Script :=
  set_dom (script_goto plain_form "http://site.test/login?failed=1") [].

(** The page did not move and shows a marker [#account]. *)
Definition same_url_with_marker : Script :=
  set_dom (script_goto plain_form login_url) ["#account"].

(** Every probe of the page raises. *)
Definition all_probes_broken : Script :=
  set_broken plain_form
    (username_patterns ++ password_patterns ++ captcha_patterns ++
     submit_patterns).

(** A form on which two username patterns and two password patterns
    match. *)
Definition ambiguous_form : Script :=
  set_dom plain_form
    ["input[placeholder*='email']"; "input[type='email']";
     "input[id*='pass']"; "input[type='password']"].

(** The same form, with different buttons and captcha fields. *)
Definition ambiguous_form_other_buttons : Script :=
  set_dom plain_form
    ["input[placeholder*='email']"; "input[type='email']";
     "input[id*='pass']"; "input[type='password']";
     "input[name*='code']"; "button[id*='login']"].

(** The form of [plain_form] without any field for the username. *)
Definition no_username_form : Script :=
  set_dom plain_form ["input[type='password']"; "button[type='submit']"].

(** A form with a captcha field and a captcha image that the OCR fails
    to read. *)
Definition captcha_form : Script :=
  set_dom plain_form
    ["input[name='username']"; "input[type='password']";
     "input[name*='captcha']"; "img[src*='captcha']";
     "button[type='submit']"].

(** Stop is pressed while the worker is in its first delay. *)
Definition stop_pressed_in_delay : Script :=
  set_stop_in_delay plain_form true.


(** The page did not move and shows a dashboard. *)
Definition same_url_with_dashboard : Script :=
  set_dom (script_goto plain_form login_url) ["#dashboard"].


(** ** More vocabulary *)

(** What the program types or presses on the page. *)
Definition is_input (e : event) : bool :=
  match e with
  | Did (Fill _ _ _) | Did (Click _ _) | Did (Press _ _ _) => true
  | _ => false
  end.

Definition no_input (e : event) : bool := negb (is_input e).


Definition is_call (e : event) : bool :=
  match e with Did _ => true | _ => false end.



(** The patterns that a loop of the detector probes: those of its list up
    to the first one that hits. *)
Fixpoint probed_patterns (hits : string -> bool) (patterns : list string)
  : list string :=
  match patterns with
  | [] => []
  | pattern :: rest =>
      pattern :: (if hits pattern then [] else probed_patterns hits rest)
  end.



(** The probes of the classifier after its first test, in the order in
    which it makes them, each with the answer it gives when the probe
    finds an element: the caller's indicator when it is a selector, the
    error patterns, the success patterns, the username-shaped field. *)
Definition classifier_layers (success_indicator : option string)
  : list (string * bool) :=
  match nonempty success_indicator with
  | Some indicator =>
      if startswith "http" indicator then [] else [(indicator, true)]
  | None => []
  end ++
  map (fun pattern => (pattern, false)) error_patterns ++
  map (fun pattern => (pattern, true)) success_patterns ++
  [(username_field_probe, false)].

(** Whether a caller's indicator written as a URL occurs in the current
    URL. *)
Definition url_indicator_matches (success_indicator : option string)
  (current_url : string) : bool :=
  match nonempty success_indicator with
  | Some indicator =>
      startswith "http" indicator && contains indicator current_url
  | None => false
  end.

Section Scanning.
Context {E : Env}.

(** Probing a table of patterns in order: the answer of the first
    pattern that is present, [default] when none is. *)
Fixpoint scan (page : Page) (table : list (string * bool)) (default : bool)
  : M bool :=
  match table with
  | [] => ret default
  | (pattern, answer) :: rest =>
      element <- query_selector page pattern;;
      if is_some element then ret answer else scan page rest default
  end.

End Scanning.


(** ** The browser session ([start] and [stop] of browser_automation.py)

    The Playwright objects are collaborators of their own: each call may
    change their state and may raise.  [Session] records which
    attributes of the object are set. *)

Inductive BrowserType : Type := CHROMIUM | FIREFOX | WEBKIT.

Inductive session_call : Type :=
| EnterPlaywright                              (* manager.__aenter__() *)
| Launch (b : BrowserType) (headless : bool)   (* playwright.<b>.launch *)
| NewContext                                   (* browser.new_context *)
| CloseContext                                 (* context.close() *)
| CloseBrowser                                 (* browser.close() *)
| ExitPlaywright.                              (* manager.__aexit__ *)

Record Session : Type := {
  playwright_manager : bool;
  playwright : bool;
  browser : bool;
  context : bool
}.

(** The attributes after [__init__]: all [None]. *)
Definition new_session : Session :=
  {| playwright_manager := false; playwright := false;
     browser := false; context := false |}.

Class Playwright : Type := {
  Driver : Type;
  drive : session_call -> Driver -> res unit * Driver
}.

Section SessionModel.
Context {P : Playwright}.

(** [start]: each attribute is set when the call that yields it has
    returned; an exception is logged and raised again. *)
Definition start (browser_type : BrowserType) (headless : bool)
  (self : Session) (d : Driver)
  : res unit * Session * Driver * list session_call :=
  let self :=
    {| playwright_manager := true; playwright := playwright self;
       browser := browser self; context := context self |} in
  match drive EnterPlaywright d with
  | (Raise e, d1) => (Raise e, self, d1, [EnterPlaywright])
  | (Ok _, d1) =>
      let self :=
        {| playwright_manager := true; playwright := true;
           browser := browser self; context := context self |} in
      match drive (Launch browser_type headless) d1 with
      | (Raise e, d2) =>
          (Raise e, self, d2,
           [EnterPlaywright; Launch browser_type headless])
      | (Ok _, d2) =>
          let self :=
            {| playwright_manager := true; playwright := true;
               browser := true; context := context self |} in
          match drive NewContext d2 with
          | (Raise e, d3) =>
              (Raise e, self, d3,
               [EnterPlaywright; Launch browser_type headless; NewContext])
          | (Ok _, d3) =>
              (Ok tt,
               {| playwright_manager := true; playwright := true;
                  browser := true; context := true |},
               d3,
               [EnterPlaywright; Launch browser_type headless; NewContext])
          end
      end
  end.

(** The body of the [try] of [stop]. *)
Definition stop_body (self : Session) (d : Driver)
  : res unit * Driver * list session_call :=
  let '(r1, d1, t1) :=
    if context self
    then let '(r, d1) := drive CloseContext d in (r, d1, [CloseContext])
    else (Ok tt, d, []) in
  match r1 with
  | Raise e => (Raise e, d1, t1)
  | Ok _ =>
      let '(r2, d2, t2) :=
        if browser self
        then let '(r, d2) := drive CloseBrowser d1 in (r, d2, [CloseBrowser])
        else (Ok tt, d1, []) in
      match r2 with
      | Raise e => (Raise e, d2, t1 ++ t2)
      | Ok _ =>
          let '(r3, d3, t3) :=
            if playwright_manager self
            then let '(r, d3) := drive ExitPlaywright d2 in
                 (r, d3, [ExitPlaywright])
            else (Ok tt, d2, []) in
          (r3, d3, t1 ++ t2 ++ t3)
      end
  end.

(** [stop]: an exception of the body is logged and dropped. *)
Definition stop (self : Session) (d : Driver)
  : res unit * Driver * list session_call :=
  let '(r, d1, t) := stop_body self d in
  match r with
  | Ok _ => (Ok tt, d1, t)
  | Raise _ => (Ok tt, d1, t)
  end.

End SessionModel.

(** What [stop] has to release, in the order in which it goes about it. *)
Definition releases (self : Session) : list session_call :=
  (if context self then [CloseContext] else []) ++
  (if browser self then [CloseBrowser] else []) ++
  (if playwright_manager self then [ExitPlaywright] else []).

(** A scripted Playwright: the calls listed raise, the others return. *)
Definition failing_on (bad : list session_call)
  (same : session_call -> session_call -> bool) : Playwright :=
  {| Driver := unit;
     drive := fun c d =>
       if existsb (same c) bad then (Raise (Exception "closed"), d)
       else (Ok tt, d) |}.

Definition same_call (a b : session_call) : bool :=
  match a, b with
  | EnterPlaywright, EnterPlaywright | NewContext, NewContext
  | CloseContext, CloseContext | CloseBrowser, CloseBrowser
  | ExitPlaywright, ExitPlaywright => true
  | Launch _ _, Launch _ _ => true
  | _, _ => false
  end.


(** ** The credentials and their loaders (password_loader.py)

    The files, the CSV reader and the workbook are collaborators: the
    loaders are given what these yield. *)

(** The whitespace of [str.isspace] and [str.strip], by encoding: the
    characters U+0009 to U+000D, U+001C to U+0020, then U+0085 and
    U+00A0, then U+1680, U+2000 to U+200A, U+2028, U+2029, U+202F, U+205F
    and U+3000. *)
Definition space1 (a : ascii) : bool :=
  let n := nat_of_ascii a in
  (((9 <=? n) && (n <=? 13)) || ((28 <=? n) && (n <=? 32)))%nat.

Definition space2 (a b : ascii) : bool :=
  ((nat_of_ascii a =? 194) &&
   ((nat_of_ascii b =? 133) || (nat_of_ascii b =? 160)))%nat.

Definition space3 (a b c : ascii) : bool :=
  let x := nat_of_ascii a in
  let y := nat_of_ascii b in
  let z := nat_of_ascii c in
  (((x =? 225) && (y =? 154) && (z =? 128)) ||
   ((x =? 226) && (y =? 128) &&
    (((128 <=? z) && (z <=? 138)) || (z =? 168) || (z =? 169) || (z =? 175))) ||
   ((x =? 226) && (y =? 129) && (z =? 159)) ||
   ((x =? 227) && (y =? 128) && (z =? 128)))%nat.

(** [ch.isspace()] for a character. *)
Definition isspace (ch : string) : bool :=
  match ch with
  | String a EmptyString => space1 a
  | String a (String b EmptyString) => space2 a b
  | String a (String b (String c EmptyString)) => space3 a b c
  | _ => false
  end.

(** [s.lstrip()]: the whitespace characters at the head are dropped. *)
Fixpoint lstrip (s : string) : string :=
  match s with
  | EmptyString => EmptyString
  | String a t =>
      if space1 a then lstrip t else
      match t with
      | EmptyString => s
      | String b t2 =>
          if space2 a b then lstrip t2 else
          match t2 with
          | EmptyString => s
          | String c t3 => if space3 a b c then lstrip t3 else s
          end
      end
  end.

(** A string made of whitespace only. *)
Fixpoint blank (s : string) : bool :=
  match s with
  | EmptyString => true
  | String a t =>
      if space1 a then blank t else
      match t with
      | EmptyString => false
      | String b t2 =>
          if space2 a b then blank t2 else
          match t2 with
          | EmptyString => false
          | String c t3 => space3 a b c && blank t3
          end
      end
  end.

(** [s.rstrip()]: what is left of [s] ends where only whitespace
    follows.  A suffix that starts inside a character is not blank: no
    whitespace starts with a continuation byte. *)
Fixpoint rstrip (s : string) : string :=
  match s with
  | EmptyString => EmptyString
  | String a t => if blank s then EmptyString else String a (rstrip t)
  end.

(** The string starts with a whitespace character: [lstrip] leaves a
    string that does not. *)
Definition starts_space (s : string) : bool :=
  match s with
  | EmptyString => false
  | String a t =>
      space1 a ||
      match t with
      | EmptyString => false
      | String b t2 =>
          space2 a b ||
          match t2 with
          | EmptyString => false
          | String c _ => space3 a b c
          end
      end
  end.

(** [s.strip()] *)
Definition strip (s : string) : string := rstrip (lstrip s).

(** Truthiness of a [str]. *)
Definition nonblank (s : string) : bool :=
  match s with EmptyString => false | String _ _ => true end.

(** [Credential.__init__]: [x.strip() if x else ""] on each field. *)
Definition Credential_init (user pass remark : string) : Credential :=
  {| username := if nonblank user then strip user else "";
     password := if nonblank pass then strip pass else "";
     note := if nonblank remark then strip remark else "" |}.

(** [Credential.is_valid] *)
Definition is_valid (c : Credential) : bool :=
  nonblank (username c) && nonblank (password c).

(** [row[i]] on a list or a tuple: negative indices count from the end;
    [None] stands for the [IndexError]. *)
Definition getitem {A : Type} (row : list A) (i : Z) : option A :=
  if (0 <=? i)%Z then nth_error row (Z.to_nat i)
  else if (- Z.of_nat (length row) <=? i)%Z
       then nth_error row (Z.to_nat (Z.of_nat (length row) + i))
       else None.

(** [self.credentials] of a [PasswordLoader]. *)
Record PasswordLoader : Type := {
  loader_credentials : list Credential
}.

(** What opening and reading a CSV file gives: no such file, an
    exception while opening or reading, or the rows of the reader. *)
Inductive csv_file : Type :=
| CsvAbsent
| CsvUnreadable
| CsvRows (rows : list (list string)).

(** [row[column].strip() if column < len(row) else ""]; [None] when the
    subscript raises. *)
Definition csv_field (row : list string) (column : Z) : option string :=
  if (column <? Z.of_nat (length row))%Z
  then option_map strip (getitem row column)
  else Some "".

(** The body of the loop of [load_from_csv] (lines 177-193): what the
    row adds to [credentials].  A row whose reading raises is skipped. *)
Definition csv_row (username_column password_column : Z)
  (note_column : option Z) (acc : list Credential) (row : list string)
  : list Credential :=
  match csv_field row username_column with
  | None => acc
  | Some user =>
      match csv_field row password_column with
      | None => acc
      | Some pass =>
          match (match note_column with
                 | Some column => csv_field row column
                 | None => Some ""
                 end) with
          | None => acc
          | Some remark =>
              if nonblank user || nonblank pass then
                let credential := Credential_init user pass remark in
                if is_valid credential then acc ++ [credential] else acc
              else acc
          end
      end
  end.

(** [load_from_csv]: the list returned and the loader afterwards. *)
Definition load_from_csv (self : PasswordLoader) (file : csv_file)
  (username_column password_column : Z) (note_column : option Z)
  (skip_header : bool) : list Credential * PasswordLoader :=
  match file with
  | CsvAbsent => ([], self)
  | CsvUnreadable => ([], self)
  | CsvRows rows =>
      let rows := if skip_header then tl rows else rows in
      let loaded :=
        fold_left (csv_row username_column password_column note_column)
          rows [] in
      (loaded, {| loader_credentials := loaded |})
  end.

(** A cell of a worksheet: the text [str(cell.value)], or [None] when the
    value is [None]. *)
Definition cell : Type := option string.

(** [str(cell.value) if cell and cell.value is not None else ""] for
    [cell = row[column] if column < len(row) else None]; [None] when the
    subscript raises. *)
Definition excel_field (row : list cell) (column : Z) : option string :=
  if (column <? Z.of_nat (length row))%Z
  then match getitem row column with
       | Some (Some text) => Some text
       | Some None => Some ""
       | None => None
       end
  else Some "".

(** The body of the loop of [load_from_excel] (lines 98-123). *)
Definition excel_row (username_column password_column : Z)
  (note_column : option Z) (acc : list Credential) (row : list cell)
  : list Credential :=
  match excel_field row username_column with
  | None => acc
  | Some user =>
      match excel_field row password_column with
      | None => acc
      | Some pass =>
          match (match note_column with
                 | Some column => excel_field row column
                 | None => Some ""
                 end) with
          | None => acc
          | Some remark =>
              if nonblank user || nonblank pass then
                let credential := Credential_init user pass remark in
                if is_valid credential then acc ++ [credential] else acc
              else acc
          end
      end
  end.

(** A worksheet gives its rows from a first row on
    ([ws.iter_rows(min_row=k)]); a workbook has named sheets and may have
    an active one. *)
Record worksheet : Type := {
  iter_rows : Z -> list (list cell)
}.

Record workbook : Type := {
  sheets : list (string * worksheet);
  active : option worksheet
}.

Inductive excel_file : Type :=
| ExcelAbsent
| ExcelUnreadable
| ExcelBook (wb : workbook).

(** [wb[sheet_name]] *)
Fixpoint sheet_named (name : string) (l : list (string * worksheet))
  : option worksheet :=
  match l with
  | [] => None
  | (n, ws) :: rest => if (n =? name)%string then Some ws else sheet_named name rest
  end.

(** [load_from_excel]: the list returned and the loader afterwards. *)
Definition load_from_excel (self : PasswordLoader) (file : excel_file)
  (sheet_name : option string) (username_column password_column : Z)
  (note_column : option Z) (skip_header : bool) (start_row : Z)
  : list Credential * PasswordLoader :=
  match file with
  | ExcelAbsent => ([], self)
  | ExcelUnreadable => ([], self)
  | ExcelBook wb =>
      match (match nonempty sheet_name with
             | Some name => sheet_named name (sheets wb)
             | None => active wb
             end) with
      | None => ([], self)
      | Some ws =>
          let row_start := (start_row + (if skip_header then 1 else 0))%Z in
          let loaded :=
            fold_left
              (excel_row username_column password_column note_column)
              (iter_rows ws row_start) [] in
          (loaded, {| loader_credentials := loaded |})
      end
  end.

(** The text of a cell as a CSV file would hold it. *)
Definition cell_text (c : cell) : string :=
  match c with Some text => text | None => "" end.

(** A table of three rows under a header, as a CSV reader yields it and
    as a worksheet holds it. *)
Definition table_rows : list (list string) :=
  [ ["user"; "password"; "note"];
    [" alice "; "hunter2"; "admin"];
    ["   "; "orphan"; ""];
    ["bob"; " s3cret"] ].

Definition table_sheet : worksheet :=
  {| iter_rows := fun min_row =>
       skipn (Z.to_nat (min_row - 1))
         [ [Some "user"; Some "password"; Some "note"];
           [Some " alice "; Some "hunter2"; Some "admin"];
           [Some "   "; Some "orphan"; None];
           [Some "bob"; Some " s3cret"] ] |}.

Definition table_book : workbook :=
  {| sheets := [("Sheet1", table_sheet)]; active := Some table_sheet |}.

Definition fresh_loader : PasswordLoader := {| loader_credentials := [] |}.

(** ** The statistics of the window (main.py)

    [MainWindow.update_statistics]: the four numbers written on the
    labels, computed from [self.results]. *)
Definition update_statistics (results : list LoginResult) : Z * Z * Z * Z :=
  let total := Z.of_nat (length results) in
  let success :=
    Z.of_nat (count_status (LoginStatus_eqb SUCCESS) results) in
  let failed :=
    Z.of_nat (count_status (LoginStatus_eqb FAILED) results) in
  let errors := (total - success - failed)%Z in
  (total, success, failed, errors).

(** ** Running the monad *)

Section Runs.
Context {E : Env}.

Lemma run_bind_ok (A B : Type) (m : M A) (k : A -> M B) w a w1 t1 r w2 t2 :
  m w = (Ok a, w1, t1) ->
  k a w1 = (r, w2, t2) ->
  bind m k w = (r, w2, t1 ++ t2).
Proof.
  intros Hm Hk. unfold bind. now rewrite Hm, Hk.
Qed.

Lemma run_bind_observe (A B : Type) (f : World -> A) (k : A -> M B) w :
  bind (observe f) k w = k (f w) w.
Proof.
  unfold bind, observe. now destruct (k (f w) w) as [[r w1] t1].
Qed.

Lemma run_try_ok (A : Type) (body : M A) handler w a w1 t1 :
  body w = (Ok a, w1, t1) ->
  try_except body handler w = (Ok a, w1, t1).
Proof.
  intros Hb. unfold try_except. now rewrite Hb.
Qed.

Lemma run_finally (A : Type) (body : M A) fin w r w1 t1 w2 t2 :
  body w = (r, w1, t1) ->
  fin w1 = (Ok tt, w2, t2) ->
  try_finally body fin w = (r, w2, t1 ++ t2).
Proof.
  intros Hb Hf. unfold try_finally. now rewrite Hb, Hf.
Qed.

(** *** Computations that leave the collaborators as they are *)

Lemma stays_ret (A : Type) (a : A) : stays (ret a).
Proof. intro w. reflexivity. Qed.

Lemma stays_query page selector : stays (query_selector page selector).
Proof. intro w. reflexivity. Qed.

Lemma stays_bind (A B : Type) (m : M A) (k : A -> M B) :
  stays m -> (forall a, stays (k a)) -> stays (bind m k).
Proof.
  intros Hm Hk w. unfold bind.
  specialize (Hm w). destruct (m w) as [[r w1] t1]. cbn in Hm. subst w1.
  destruct r as [a|e]; [|reflexivity].
  specialize (Hk a w). destruct (k a w) as [[r2 w2] t2]. exact Hk.
Qed.

Lemma stays_run (A : Type) (m : M A) w r :
  stays m -> outcome (m w) = r -> exists evs, m w = (r, w, evs).
Proof.
  intros Hs Ho. specialize (Hs w).
  destruct (m w) as [[r1 w1] t1]. cbn in Hs, Ho. subst. now exists t1.
Qed.

(** *** Computations that do not raise *)

Lemma returns_ret (A : Type) (a : A) : returns (ret a).
Proof. intro w. now exists a. Qed.

Lemma returns_observe (A : Type) (f : World -> A) : returns (observe f).
Proof. intro w. now exists (f w). Qed.

Lemma returns_attempt (A : Type) (m : M A) : returns (attempt m).
Proof.
  intro w. unfold attempt. destruct (m w) as [[r w1] t1]. now exists r.
Qed.

Lemma returns_bind (A B : Type) (m : M A) (k : A -> M B) :
  returns m -> (forall a, returns (k a)) -> returns (bind m k).
Proof.
  intros Hm Hk w. unfold bind.
  destruct (Hm w) as [a Ha]. destruct (m w) as [[r w1] t1]. cbn in Ha. subst r.
  destruct (Hk a w1) as [b Hb]. destruct (k a w1) as [[r2 w2] t2].
  cbn in Hb. subst r2. now exists b.
Qed.

Lemma returns_try (A : Type) (body : M A) handler :
  (forall e, returns (handler e)) -> returns (try_except body handler).
Proof.
  intros Hh w. unfold try_except.
  destruct (body w) as [[[a|e] w1] t1]; [now exists a|].
  destruct (Hh e w1) as [b Hb]. destruct (handler e w1) as [[r2 w2] t2].
  cbn in Hb. subst r2. now exists b.
Qed.

Lemma returns_or_else (A : Type) (body : M A) fallback :
  returns (or_else body fallback).
Proof. apply returns_try. intro e. apply returns_ret. Qed.

Lemma returns_finally (A : Type) (body : M A) fin :
  returns body -> returns fin -> returns (try_finally body fin).
Proof.
  intros Hb Hf w. unfold try_finally.
  destruct (Hb w) as [a Ha]. destruct (body w) as [[r w1] t1]. cbn in Ha. subst r.
  destruct (Hf w1) as [u Hu]. destruct (fin w1) as [[rf w2] t2].
  cbn in Hu. subst rf. now exists a.
Qed.

Lemma returns_run (A : Type) (m : M A) w :
  returns m -> exists a w1 t1, m w = (Ok a, w1, t1).
Proof.
  intros Hm. destruct (Hm w) as [a Ha].
  destruct (m w) as [[r w1] t1]. cbn in Ha. subst r. now exists a, w1, t1.
Qed.

(** *** Computations all of whose events satisfy a test *)

Lemma quiet_ret (A : Type) P (a : A) : quiet P (ret a).
Proof. intro w. reflexivity. Qed.

Lemma quiet_observe (A : Type) P (f : World -> A) : quiet P (observe f).
Proof. intro w. reflexivity. Qed.

Lemma quiet_call P c : P (Did c) = true -> quiet P (do_call c).
Proof.
  intros HP w. unfold do_call. destruct (perform c w) as [r w1].
  cbn. now rewrite HP.
Qed.

Lemma quiet_query P page selector :
  P (Probed page selector) = true -> quiet P (query_selector page selector).
Proof. intros HP w. cbn. now rewrite HP. Qed.

Lemma quiet_bind (A B : Type) P (m : M A) (k : A -> M B) :
  quiet P m -> (forall a, quiet P (k a)) -> quiet P (bind m k).
Proof.
  intros Hm Hk w. unfold bind.
  specialize (Hm w). destruct (m w) as [[r w1] t1]. cbn in Hm.
  destruct r as [a|e]; [|exact Hm].
  specialize (Hk a w1). destruct (k a w1) as [[r2 w2] t2]. cbn in *.
  now rewrite forallb_app, Hm, Hk.
Qed.

Lemma quiet_try (A : Type) P (body : M A) handler :
  quiet P body -> (forall e, quiet P (handler e)) ->
  quiet P (try_except body handler).
Proof.
  intros Hb Hh w. unfold try_except.
  specialize (Hb w). destruct (body w) as [[r w1] t1]. cbn in Hb.
  destruct r as [a|e]; [exact Hb|].
  specialize (Hh e w1). destruct (handler e w1) as [[r2 w2] t2]. cbn in *.
  now rewrite forallb_app, Hb, Hh.
Qed.

Lemma quiet_or_else (A : Type) P (body : M A) fallback :
  quiet P body -> quiet P (or_else body fallback).
Proof. intros Hb. apply quiet_try; [exact Hb|]. intro e. apply quiet_ret. Qed.

Lemma quiet_run (A : Type) P (m : M A) w r w1 t1 :
  quiet P m -> m w = (r, w1, t1) -> forallb P t1 = true.
Proof. intros Hq Hm. specialize (Hq w). now rewrite Hm in Hq. Qed.

(** *** The logger: it leaves no event and no change, and raises exactly
    when a message does not render *)

Lemma render_run message w :
  render message w =
    (match rendering message with
     | Some text => Raise (Exception text)
     | None => Ok tt
     end, w, []).
Proof. unfold render. now destruct (rendering message). Qed.

Lemma render_ok message w :
  renders message = true -> render message w = (Ok tt, w, []).
Proof.
  unfold renders. rewrite render_run.
  now destruct (rendering message).
Qed.


Lemma quiet_render P message : quiet P (render message).
Proof. intro w. now rewrite render_run. Qed.

Lemma stays_render message : stays (render message).
Proof. intro w. now rewrite render_run. Qed.



Lemma returns_render message :
  renders message = true -> returns (render message).
Proof. intros H w. exists tt. now rewrite (render_ok _ w H). Qed.

(** *** Computations that raise nothing but what satisfies a test *)

Lemma throws_returns (A : Type) Q (m : M A) : returns m -> throws Q m.
Proof.
  intros Hm w e w1 t R. destruct (Hm w) as [a Ha].
  rewrite R in Ha. discriminate.
Qed.

Lemma throws_bind (A B : Type) Q (m : M A) (k : A -> M B) :
  throws Q m -> (forall a, throws Q (k a)) -> throws Q (bind m k).
Proof.
  intros Hm Hk w e w2 t. unfold bind.
  destruct (m w) as [[[a|e1] w1] t1] eqn:R.
  - destruct (k a w1) as [[r2 w3] t2] eqn:R2.
    intros [= -> _ _]. exact (Hk a w1 e w3 t2 R2).
  - intros [= <- _ _]. exact (Hm w e1 w1 t1 R).
Qed.

Lemma throws_call Q c :
  (forall w e w1, perform c w = (Raise e, w1) -> Q e) -> throws Q (do_call c).
Proof.
  intros H w e w1 t. unfold do_call.
  destruct (perform c w) as [r w2] eqn:R. intros [= -> _ _].
  exact (H w e w2 R).
Qed.

Lemma throws_render Q message :
  renders message = true -> throws Q (render message).
Proof. intros H. now apply throws_returns, returns_render. Qed.

Lemma returns_try_throws (A : Type) Q (body : M A) handler :
  throws Q body -> (forall e, Q e -> returns (handler e)) ->
  returns (try_except body handler).
Proof.
  intros Hb Hh w. unfold try_except.
  destruct (body w) as [[[a|e] w1] t1] eqn:R; [now exists a|].
  destruct (Hh e (Hb w e w1 t1 R) w1) as [b Hb1].
  destruct (handler e w1) as [[r2 w2] t2]. cbn in Hb1. subst r2. now exists b.
Qed.

Lemma render_twice_run first second w r w1 t :
  (render first;; render second) w = (r, w1, t) -> w1 = w /\ t = [].
Proof.
  unfold bind. rewrite render_run.
  destruct (rendering first); [now intros [= _ <- <-]|].
  rewrite render_run. now intros [= _ <- <-].
Qed.

Lemma quiet_logger_success P message : quiet P (logger_success message).
Proof.
  unfold logger_success, logger_info.
  apply quiet_bind; [|intro]; apply quiet_render.
Qed.

Lemma quiet_logger_failed P message : quiet P (logger_failed message).
Proof.
  unfold logger_failed, logger_error.
  apply quiet_bind; [|intro]; apply quiet_render.
Qed.

Lemma quiet_progress_info P current total message :
  quiet P (progress_info current total message).
Proof.
  unfold progress_info, logger_info.
  apply quiet_bind; [|intro]; apply quiet_render.
Qed.

Lemma quiet_credential_attempt P target user status_text :
  quiet P (credential_attempt target user status_text).
Proof.
  unfold credential_attempt, logger_info.
  apply quiet_bind; [|intro]; apply quiet_render.
Qed.

End Runs.

Ltac apply_throws_call H :=
  match goal with
  | |- throws _ (do_call ?k) => apply (H k)
  end.

Ltac apply_quiet_call :=
  match goal with
  | |- quiet ?P (do_call ?c) => apply (quiet_call P c)
  end.

Ltac quiet_step :=
  first
    [ apply quiet_ret
    | apply quiet_observe
    | apply quiet_render
    | apply quiet_logger_success
    | apply quiet_logger_failed
    | apply quiet_or_else
    | apply quiet_try; [|intro]
    | apply quiet_bind; [|intro]
    | apply quiet_query; solve [reflexivity | auto]
    | apply_quiet_call; reflexivity
    | match goal with
      | |- quiet _ (match ?x with _ => _ end) => destruct x
      end ].

(** ** The success classifier *)

Section Classifier.
Context {E : Env}.

Lemma stays_any_present page patterns : stays (any_present page patterns).
Proof.
  induction patterns as [|pattern rest IH]; cbn.
  - apply stays_ret.
  - apply stays_bind; [apply stays_query|].
    intros [el|]; cbn; [apply stays_ret|exact IH].
Qed.

Lemma stays_indicator page current_url success_indicator :
  stays (indicator_matches page current_url success_indicator).
Proof.
  unfold indicator_matches.
  destruct (nonempty success_indicator) as [indicator|]; [|apply stays_ret].
  destruct (startswith "http" indicator); [apply stays_ret|].
  apply stays_bind; [apply stays_query|]. intro el. apply stays_ret.
Qed.

Lemma url_changed_true current_url original_url :
  current_url <> original_url ->
  (forall token, In token ["error"; "login"; "signin"] ->
     contains token (lower current_url) = false) ->
  url_changed current_url original_url = true.
Proof.
  intros Hneq Htok. unfold url_changed.
  apply String.eqb_neq in Hneq. rewrite Hneq. cbn [negb andb existsb].
  rewrite !Htok by (cbn; auto). reflexivity.
Qed.

Lemma url_changed_same current_url :
  url_changed current_url current_url = false.
Proof. unfold url_changed. now rewrite String.eqb_refl. Qed.

(** C1.  When the current URL differs from the original one and its
    lower-cased text contains none of [error], [login], [signin], the
    classifier returns [True]; it does so for any success indicator,
    supplied or not, and without a single probe of the DOM: no event is
    recorded and the state of the page is untouched. *)
Theorem url_change_decides page original_url success_indicator w :
  page_url w page <> original_url ->
  (forall token, In token ["error"; "login"; "signin"] ->
     contains token (lower (page_url w page)) = false) ->
  _verify_login_success page original_url success_indicator w =
    (Ok true, w, []).
Proof.
  intros Hneq Htok.
  pose proof (url_changed_true Hneq Htok) as Hurl.
  unfold _verify_login_success, or_else, try_except, bind, observe.
  now rewrite Hurl.
Qed.

(** C7.  On a page whose URL is still the original one, a supplied
    success indicator that matches makes the classifier return [True]:
    an indicator starting with [http] matches when it occurs in the
    current URL, any other indicator matches when its probe finds an
    element. *)
Theorem indicator_decides_on_same_url page original_url indicator w :
  page_url w page = original_url ->
  indicator <> "" ->
  (if startswith "http" indicator
   then contains indicator (page_url w page) = true
   else exists element, query w page indicator = Ok (Some element)) ->
  exists evs,
    _verify_login_success page original_url (Some indicator) w =
      (Ok true, w, evs) /\
    evs = if startswith "http" indicator then []
          else [Probed page indicator].
Proof.
  intros Hsame Hne Hmatch.
  unfold _verify_login_success, or_else, try_except, bind, observe.
  rewrite Hsame, url_changed_same.
  unfold indicator_matches.
  assert (Hn : nonempty (Some indicator) = Some indicator)
    by (destruct indicator; [contradiction|reflexivity]).
  rewrite Hn.
  destruct (startswith "http" indicator).
  - rewrite Hsame in Hmatch. cbn. rewrite Hmatch. cbn. now eexists.
  - destruct Hmatch as [element Hq].
    unfold bind, query_selector. rewrite Hq. cbn. now eexists.
Qed.

(** C2, as the code has it.  When the first four layers have not decided
    (the first test fails, the indicator does not match, no error pattern
    and no success pattern is present) the classifier probes for a
    username-shaped field: it returns [False] when there is one, and
    otherwise [True] exactly when the current URL differs from the
    original one; the three tokens are not looked for again. *)
Theorem residual_layer page original_url success_indicator w field :
  url_changed (page_url w page) original_url = false ->
  outcome (indicator_matches page (page_url w page) success_indicator w)
    = Ok false ->
  outcome (any_present page error_patterns w) = Ok false ->
  outcome (any_present page success_patterns w) = Ok false ->
  query w page username_field_probe = Ok field ->
  exists evs,
    _verify_login_success page original_url success_indicator w =
      (Ok (if is_some field then false
           else negb (page_url w page =? original_url)%string), w, evs).
Proof.
  intros H1 H2 H3 H4 H5.
  destruct (stays_run w (stays_indicator _ _ _) H2) as [t2 R2].
  destruct (stays_run w (stays_any_present _ _) H3) as [t3 R3].
  destruct (stays_run w (stays_any_present _ _) H4) as [t4 R4].
  unfold _verify_login_success, or_else, try_except.
  unfold bind at 1. unfold observe at 1. rewrite H1.
  unfold bind at 1. rewrite R2.
  unfold bind at 1. rewrite R3.
  unfold bind at 1. rewrite R4.
  unfold bind at 1. unfold query_selector at 1. rewrite H5.
  destruct field; cbn; eexists; reflexivity.
Qed.

End Classifier.

(** C1 on an example: the page moved from [/login] to [/dashboard]. *)
Lemma url_change_decides_witness :
  _verify_login_success (E := scripted) 7 login_url (Some "#account")
    at_dashboard = (Ok true, at_dashboard, []).
Proof.
  apply (url_change_decides (E := scripted)).
  - vm_compute. discriminate.
  - intros token [<-|[<-|[<-|[]]]]; vm_compute; reflexivity.
Defined.

(** C7 on an example: the URL is unchanged and [#account] is present. *)
Lemma indicator_decides_on_same_url_witness :
  exists evs,
    _verify_login_success (E := scripted) 7 login_url (Some "#account")
      same_url_with_marker = (Ok true, same_url_with_marker, evs) /\
    evs = [Probed 7 "#account"].
Proof.
  apply (indicator_decides_on_same_url (E := scripted) 7
           (original_url := login_url) (indicator := "#account")
           same_url_with_marker).
  - reflexivity.
  - discriminate.
  - vm_compute. now exists 1.
Defined.

(** C2 on an example: the residual layer at [/login?failed=1]. *)
Lemma residual_layer_witness :
  exists evs,
    _verify_login_success (E := scripted) 7 login_url None at_login_again =
      (Ok true, at_login_again, evs).
Proof.
  apply (residual_layer (E := scripted) 7 login_url None at_login_again
           (field := None)); reflexivity.
Defined.

(** C2 as stated fails.  The page went from [/login] to
    [/login?failed=1]: the first test fails on the token [login], no
    indicator was supplied, no error or success pattern is present and
    there is no username-shaped field.  The first test is [False], the
    classifier answers [True]. *)
Lemma residual_answer_differs_from_first_test :
  url_changed (page_url (Env := scripted) at_login_again 7) login_url = false /\
  outcome (indicator_matches (E := scripted) 7
             (page_url (Env := scripted) at_login_again 7) None at_login_again)
    = Ok false /\
  outcome (any_present (E := scripted) 7 error_patterns at_login_again)
    = Ok false /\
  outcome (any_present (E := scripted) 7 success_patterns at_login_again)
    = Ok false /\
  query (Env := scripted) at_login_again 7 username_field_probe = Ok None /\
  outcome (_verify_login_success (E := scripted) 7 login_url None
             at_login_again) = Ok true /\
  outcome (_verify_login_success (E := scripted) 7 login_url None
             at_login_again)
    <> Ok (url_changed (page_url (Env := scripted) at_login_again 7) login_url).
Proof.
  repeat split; try reflexivity.
  vm_compute. discriminate.
Qed.

(** ** The form detector *)

Section Detector.
Context {E : Env}.

(** The loop of a role stops at the first pattern whose probe hits. *)
Lemma detect_role_run page patterns w :
  exists evs,
    detect_role page patterns w =
      (Ok (find (probe_hits w page) patterns), w, evs).
Proof.
  induction patterns as [|pattern rest [evs IH]]; cbn.
  - now eexists.
  - unfold probe_hits at 1.
    unfold bind at 1, try_except, bind, query_selector.
    destruct (query w page pattern) as [[element|]|e]; cbn.
    + now eexists.
    + rewrite IH. now eexists.
    + rewrite IH. now eexists.
Qed.

(** A probe that raises only leaves its trace: the loop goes on with the
    next pattern. *)
Lemma detect_role_skips_failure page pattern rest w e :
  query w page pattern = Raise e ->
  detect_role page (pattern :: rest) w =
    (outcome (detect_role page rest w), w,
     Probed page pattern :: events (detect_role page rest w)).
Proof.
  intros Hq. destruct (detect_role_run page rest w) as [evs R].
  cbn. unfold bind at 1, try_except, bind, query_selector.
  rewrite Hq. cbn. now rewrite R.
Qed.

Lemma detect_login_form_run page w :
  exists evs,
    detect_login_form page w =
      (Ok {| sel_username := find (probe_hits w page) username_patterns;
             sel_password := find (probe_hits w page) password_patterns;
             sel_captcha := find (probe_hits w page) captcha_patterns;
             sel_submit := find (probe_hits w page) submit_patterns |},
       w, evs).
Proof.
  destruct (detect_role_run page username_patterns w) as [t1 R1].
  destruct (detect_role_run page password_patterns w) as [t2 R2].
  destruct (detect_role_run page captcha_patterns w) as [t3 R3].
  destruct (detect_role_run page submit_patterns w) as [t4 R4].
  eexists. unfold detect_login_form, or_else.
  apply run_try_ok. eapply run_bind_ok; [exact R1|].
  apply run_try_ok. eapply run_bind_ok; [exact R2|].
  apply run_try_ok. eapply run_bind_ok; [exact R3|].
  apply run_try_ok. eapply run_bind_ok; [exact R4|].
  reflexivity.
Qed.

(** The probes of a loop: every pattern up to the first that hits, a
    probe that raises being no hit. *)
Lemma detect_role_trace page patterns w :
  detect_role page patterns w =
    (Ok (find (probe_hits w page) patterns), w,
     map (Probed page) (probed_patterns (probe_hits w page) patterns)).
Proof.
  induction patterns as [|pattern rest IH]; [reflexivity|].
  cbn [detect_role find probed_patterns map]. unfold probe_hits at 1 3.
  unfold bind at 1, try_except, bind, query_selector.
  destruct (query w page pattern) as [[element|]|e]; cbn;
    try reflexivity; now rewrite IH.
Qed.

Lemma detect_login_form_trace page w :
  detect_login_form page w =
    (Ok {| sel_username := find (probe_hits w page) username_patterns;
           sel_password := find (probe_hits w page) password_patterns;
           sel_captcha := find (probe_hits w page) captcha_patterns;
           sel_submit := find (probe_hits w page) submit_patterns |},
     w,
     flat_map
       (fun role =>
          map (Probed page)
            (probed_patterns (probe_hits w page) (patterns_of role)))
       [RoleUsername; RolePassword; RoleCaptcha; RoleSubmit]).
Proof.
  unfold detect_login_form, or_else.
  apply run_try_ok. eapply run_bind_ok; [apply detect_role_trace|].
  apply run_try_ok. eapply run_bind_ok; [apply detect_role_trace|].
  apply run_try_ok. eapply run_bind_ok; [apply detect_role_trace|].
  apply run_try_ok. eapply run_bind_ok; [apply detect_role_trace|].
  reflexivity.
Qed.

Lemma detected_selector page w role sels evs :
  detect_login_form page w = (Ok sels, w, evs) ->
  selector_of role sels = find (probe_hits w page) (patterns_of role).
Proof.
  intros R. destruct (detect_login_form_run page w) as [evs' R'].
  rewrite R in R'. injection R' as -> _. now destruct role.
Qed.

End Detector.

Lemma distinct_NoDup l : distinct l = true -> NoDup l.
Proof.
  induction l as [|x rest IH]; cbn; intros H; constructor.
  - apply andb_prop in H as [H _]. intros Hin.
    apply negb_true_iff in H.
    assert (existsb (String.eqb x) rest = true) as Hex
      by (apply existsb_exists; exists x; split;
          [exact Hin|apply String.eqb_refl]).
    congruence.
  - apply andb_prop in H as [_ H]. now apply IH.
Qed.

Lemma patterns_NoDup role : NoDup (patterns_of role).
Proof. apply distinct_NoDup. now destruct role. Qed.

Lemma find_first_hit (f : string -> bool) earlier pattern later :
  forallb (fun p => negb (f p)) earlier = true ->
  f pattern = true ->
  find f (earlier ++ pattern :: later) = Some pattern.
Proof.
  induction earlier as [|x rest IH]; cbn; intros Hmiss Hhit.
  - now rewrite Hhit.
  - apply andb_prop in Hmiss as [Hx Hrest].
    apply negb_true_iff in Hx. rewrite Hx. now apply IH.
Qed.

Lemma find_not_after_hit (f : string -> bool) earlier pattern later x :
  f pattern = true ->
  find f (earlier ++ pattern :: later) = Some x ->
  In x (earlier ++ [pattern]).
Proof.
  induction earlier as [|y rest IH]; cbn; intros Hhit Hfind.
  - rewrite Hhit in Hfind. injection Hfind as <-. now left.
  - destruct (f y).
    + injection Hfind as <-. now left.
    + right. now apply IH.
Qed.

Lemma find_ext_in (f g : string -> bool) l :
  (forall x, In x l -> f x = g x) -> find f l = find g l.
Proof.
  induction l as [|x rest IH]; cbn; intros H; [reflexivity|].
  rewrite (H x) by now left. destruct (g x); [reflexivity|].
  apply IH. intros y Hy. apply H. now right.
Qed.

Lemma find_skips_misses (f : string -> bool) earlier later :
  (forall p, In p earlier -> f p = false) ->
  find f (earlier ++ later) = find f later.
Proof.
  induction earlier as [|x rest IH]; cbn; intros H; [reflexivity|].
  rewrite (H x) by now left. apply IH. intros y Hy. apply H. now right.
Qed.

Lemma probed_after_misses (f : string -> bool) earlier pattern later :
  (forall p, In p earlier -> f p = false) ->
  In pattern (probed_patterns f (earlier ++ pattern :: later)).
Proof.
  induction earlier as [|x rest IH]; cbn; intros H; [now left|].
  right. rewrite (H x) by now left. apply IH. intros y Hy. apply H. now right.
Qed.

Lemma find_all_miss (f : string -> bool) l :
  (forall x, In x l -> f x = false) -> find f l = None.
Proof.
  induction l as [|x rest IH]; cbn; intros H; [reflexivity|].
  rewrite (H x) by now left. apply IH. intros y Hy. apply H. now right.
Qed.

Section DetectorClaims.
Context {E : Env}.

(** C4.  For each of the four roles, [detect_login_form] returns the
    first pattern of the role's list whose probe finds an element, and
    nothing when none does.  When two patterns of a list both match, the
    later one is not returned.  The selector of a role depends on the
    probes of that role's own patterns only: on two pages that agree on
    them it is the same, whatever the other roles find. *)
Theorem detection_takes_first_match page w :
  exists sels evs,
    detect_login_form page w = (Ok sels, w, evs) /\
    (forall role,
       selector_of role sels =
         find (probe_hits w page) (patterns_of role)) /\
    (forall role earlier pattern later,
       patterns_of role = earlier ++ pattern :: later ->
       forallb (fun p => negb (probe_hits w page p)) earlier = true ->
       probe_hits w page pattern = true ->
       selector_of role sels = Some pattern) /\
    (forall role l1 a l2 b l3,
       patterns_of role = l1 ++ a :: l2 ++ b :: l3 ->
       probe_hits w page a = true ->
       probe_hits w page b = true ->
       selector_of role sels <> Some b) /\
    (forall role w2 sels2 evs2,
       (forall pattern, In pattern (patterns_of role) ->
          query w2 page pattern = query w page pattern) ->
       detect_login_form page w2 = (Ok sels2, w2, evs2) ->
       selector_of role sels2 = selector_of role sels).
Proof.
  destruct (detect_login_form_run page w) as [evs R].
  eexists. exists evs. split; [exact R|].
  pose proof (fun role => @detected_selector _ page w role _ _ R) as Hsel.
  split; [exact Hsel|]. split; [|split].
  - intros role earlier pattern later Hl Hmiss Hhit.
    rewrite Hsel, Hl. now apply find_first_hit.
  - intros role l1 a l2 b l3 Hl Ha Hb Hres.
    rewrite Hsel, Hl in Hres.
    apply find_not_after_hit in Hres; [|exact Ha].
    pose proof (patterns_NoDup role) as Hnd. rewrite Hl in Hnd.
    replace (l1 ++ a :: l2 ++ b :: l3)
      with (((l1 ++ [a]) ++ l2) ++ b :: l3) in Hnd
      by (now rewrite <- !app_assoc).
    apply NoDup_remove_2 in Hnd. apply Hnd.
    apply in_or_app. left. apply in_or_app. now left.
  - intros role w2 sels2 evs2 Hagree R2.
    rewrite Hsel, (@detected_selector _ page w2 role _ _ R2).
    apply find_ext_in. intros x Hx. unfold probe_hits.
    now rewrite Hagree.
Qed.

(** C8.  [detect_login_form] does not raise, in any state of the page,
    and leaves that state as it is.  In the loop of each role it probes
    the patterns of the role in order, up to the first that finds an
    element, whether the probes before it came back empty or raised: a
    probe that raises makes the loop go on with the next pattern of the
    same role, which is probed in its turn, and the role gets the first
    of the following patterns that finds an element.  When every probe
    raises, the map returned has the four roles absent. *)
Theorem detection_never_raises page w :
  (exists sels evs,
     detect_login_form page w = (Ok sels, w, evs) /\
     evs =
       flat_map
         (fun role =>
            map (Probed page)
              (probed_patterns (probe_hits w page) (patterns_of role)))
         [RoleUsername; RolePassword; RoleCaptcha; RoleSubmit] /\
     (forall role earlier pattern later e,
        patterns_of role = earlier ++ pattern :: later ->
        (forall p, In p earlier -> probe_hits w page p = false) ->
        query w page pattern = Raise e ->
        selector_of role sels = find (probe_hits w page) later /\
        In (Probed page pattern) evs /\
        (forall next rest,
           later = next :: rest -> In (Probed page next) evs))) /\
  (forall pattern rest e,
     query w page pattern = Raise e ->
     detect_role page (pattern :: rest) w =
       (outcome (detect_role page rest w), w,
        Probed page pattern :: events (detect_role page rest w))) /\
  ((forall role pattern, In pattern (patterns_of role) ->
      exists e, query w page pattern = Raise e) ->
   exists evs, detect_login_form page w = (Ok no_selectors, w, evs)).
Proof.
  pose proof (detect_login_form_trace page w) as R.
  assert (Hprobe : forall role pattern,
            In pattern (probed_patterns (probe_hits w page) (patterns_of role)) ->
            In (Probed page pattern)
              (flat_map
                 (fun role =>
                    map (Probed page)
                      (probed_patterns (probe_hits w page) (patterns_of role)))
                 [RoleUsername; RolePassword; RoleCaptcha; RoleSubmit])).
  { intros role pattern Hin. apply in_flat_map. exists role. split.
    - destruct role; cbn; auto.
    - now apply in_map. }
  split; [|split].
  - eexists. eexists. split; [exact R|]. split; [reflexivity|].
    intros role earlier pattern later e Hl Hmiss Hq.
    assert (Hp : probe_hits w page pattern = false)
      by (unfold probe_hits; now rewrite Hq).
    split; [|split].
    + rewrite (@detected_selector _ page w role _ _ R), Hl.
      rewrite (find_skips_misses _ earlier (pattern :: later) Hmiss).
      cbn [find]. now rewrite Hp.
    + apply (Hprobe role). rewrite Hl. now apply probed_after_misses.
    + intros next rest ->. apply (Hprobe role). rewrite Hl.
      replace (earlier ++ pattern :: next :: rest)
        with ((earlier ++ [pattern]) ++ next :: rest)
        by (now rewrite <- app_assoc).
      apply probed_after_misses. intros q Hin.
      apply in_app_or in Hin as [Hin|[<-|[]]]; [now apply Hmiss|exact Hp].
  - intros pattern rest e. apply detect_role_skips_failure.
  - intros Hall. eexists. rewrite R. f_equal. f_equal. f_equal.
    assert (Hnone : forall role,
              find (probe_hits w page) (patterns_of role) = None).
    { intros role. apply find_all_miss. intros x Hx.
      destruct (Hall role x Hx) as [e He].
      unfold probe_hits. now rewrite He. }
    pose proof (Hnone RoleUsername) as Hu.
    pose proof (Hnone RolePassword) as Hp.
    pose proof (Hnone RoleCaptcha) as Hc.
    pose proof (Hnone RoleSubmit) as Hs.
    cbn [patterns_of] in Hu, Hp, Hc, Hs.
    unfold no_selectors. now rewrite Hu, Hp, Hc, Hs.
Qed.

End DetectorClaims.

(** C4 on an example: two username patterns match, the earlier wins, and
    the answer for the username is the same on a page with other
    buttons. *)
Lemma detection_takes_first_match_witness :
  exists sels evs,
    detect_login_form (E := scripted) 7 ambiguous_form =
      (Ok sels, ambiguous_form, evs) /\
    sel_username sels = Some "input[type='email']" /\
    sel_username sels <> Some "input[placeholder*='email']" /\
    (forall sels2 evs2,
       detect_login_form (E := scripted) 7 ambiguous_form_other_buttons =
         (Ok sels2, ambiguous_form_other_buttons, evs2) ->
       sel_username sels2 = sel_username sels).
Proof.
  destruct (detection_takes_first_match (E := scripted) 7 ambiguous_form)
    as (sels & evs & R & _ & Hfirst & Htie & Hind).
  exists sels, evs. split; [exact R|]. split; [|split].
  - apply (Hfirst RoleUsername
             ["input[type='text'][name*='user']";
              "input[type='text'][name*='login']";
              "input[type='text'][name*='account']"]
             "input[type='email']"
             (skipn 4 username_patterns)); reflexivity.
  - apply (Htie RoleUsername (firstn 3 username_patterns)
             "input[type='email']"
             (firstn 9 (skipn 4 username_patterns))
             "input[placeholder*='email']" []); reflexivity.
  - intros sels2 evs2 R2.
    apply (Hind RoleUsername ambiguous_form_other_buttons sels2 evs2);
      [|exact R2].
    intros pattern Hin. cbn in Hin.
    repeat (destruct Hin as [<-|Hin]; [reflexivity|]). contradiction.
Defined.

(** C8 on an example: every probe raises and the map comes back empty. *)
Lemma detection_never_raises_witness :
  exists evs,
    detect_login_form (E := scripted) 7 all_probes_broken =
      (Ok no_selectors, all_probes_broken, evs).
Proof.
  apply (proj2 (proj2 (detection_never_raises (E := scripted) 7
                         all_probes_broken))).
  intros role pattern Hin. exists (Exception "probe").
  destruct role; cbn in Hin;
    repeat (destruct Hin as [<-|Hin]; [reflexivity|]); contradiction.
Defined.

(** ** One attempt *)

Create HintDb quiet.

Section Attempt.
Context {E : Env}.

Lemma quiet_detect_role P page patterns :
  blind_to_probes P -> quiet P (detect_role page patterns).
Proof.
  intros HP. induction patterns as [|pattern rest IH]; cbn.
  - apply quiet_ret.
  - apply quiet_bind.
    + apply quiet_try; [|intro; apply quiet_ret].
      apply quiet_bind; [now apply quiet_query|intro; apply quiet_ret].
    + intros [|]; [apply quiet_ret|exact IH].
Qed.

Lemma quiet_any_present P page patterns :
  blind_to_probes P -> quiet P (any_present page patterns).
Proof.
  intros HP. induction patterns as [|pattern rest IH]; cbn.
  - apply quiet_ret.
  - apply quiet_bind; [now apply quiet_query|].
    intros [el|]; cbn; [apply quiet_ret|exact IH].
Qed.

Lemma quiet_find_captcha_image P page captcha_selector patterns :
  blind_to_probes P ->
  quiet P (find_captcha_image page captcha_selector patterns).
Proof.
  intros HP. induction patterns as [|pattern rest IH]; cbn.
  - apply quiet_ret.
  - apply quiet_bind; [now apply quiet_query|].
    intros [el|]; cbn; [apply quiet_ret|exact IH].
Qed.

End Attempt.

#[export] Hint Resolve quiet_detect_role quiet_any_present
  quiet_find_captcha_image : quiet.

Ltac conjs := repeat match goal with |- _ /\ _ => split end.

Ltac quiet_auto :=
  repeat first
    [ solve [auto with quiet]
    | progress intros
    | quiet_step ].

Section AttemptParts.
Context {E : Env}.

Lemma quiet_detect_login_form P page :
  blind_to_probes P -> quiet P (detect_login_form page).
Proof. intros HP. unfold detect_login_form. quiet_auto. Qed.

Lemma quiet_resolve_selectors P page u p c s :
  blind_to_probes P -> quiet P (resolve_selectors page u p c s).
Proof.
  intros HP. unfold resolve_selectors.
  destruct (negb (truthy u) || negb (truthy p)); [|apply quiet_ret].
  apply quiet_bind; [now apply quiet_detect_login_form|].
  intro. apply quiet_ret.
Qed.

Lemma quiet_verify P page original_url success_indicator :
  blind_to_probes P ->
  quiet P (_verify_login_success page original_url success_indicator).
Proof.
  intros HP. unfold _verify_login_success, indicator_matches. quiet_auto.
Qed.

Lemma quiet_LoginResult_init P st c target msg shot :
  quiet P (LoginResult_init st c target msg shot).
Proof. unfold LoginResult_init. quiet_auto. Qed.

Lemma quiet_save_screenshot P self page user suffix :
  (forall path, P (Did (Screenshot page path)) = true) ->
  quiet P (_save_screenshot self page user suffix).
Proof.
  intros HP. unfold _save_screenshot.
  apply quiet_try; [|intro; apply quiet_ret].
  apply quiet_bind; [apply quiet_observe|]. intro now.
  apply quiet_bind; [now apply_quiet_call|]. intro. apply quiet_ret.
Qed.

Lemma quiet_get_captcha_image P page captcha_selector :
  blind_to_probes P ->
  (forall element, P (Did (ElementScreenshot element)) = true) ->
  quiet P (get_captcha_image page captcha_selector).
Proof.
  intros HP HS. unfold get_captcha_image, element_screenshot.
  apply quiet_or_else. apply quiet_bind.
  - destruct (negb (truthy captcha_selector)); quiet_auto.
  - intros sel. destruct (nonempty sel); [|apply quiet_ret].
    apply quiet_bind; [now apply quiet_query|].
    intros [element|]; [|apply quiet_ret].
    apply quiet_bind; [|intro; apply quiet_ret].
    apply (quiet_call P (ElementScreenshot element)), HS.
Qed.

Lemma quiet_solve_captcha P page captcha_selector :
  blind_to_probes P ->
  (forall element, P (Did (ElementScreenshot element)) = true) ->
  (forall image, P (Did (Classification image)) = true) ->
  quiet P (solve_captcha page captcha_selector).
Proof.
  intros HP HS HC. unfold solve_captcha, solve_from_bytes, classification.
  apply quiet_or_else. apply quiet_bind.
  - now apply quiet_get_captcha_image.
  - intros [[|b bytes]|]; try apply quiet_ret.
    apply quiet_or_else.
    apply quiet_bind; [|intro; apply quiet_ret].
    apply (quiet_call P (Classification (b :: bytes))), HC.
Qed.

Lemma quiet_navigate P self page target :
  (forall ms, P (Did (SetDefaultTimeout page ms)) = true) ->
  P (Did (Goto page target)) = true ->
  (forall ms, P (Did (WaitForLoadState page ms)) = true) ->
  quiet P (navigate self page target).
Proof.
  intros H1 H2 H3. unfold navigate.
  apply quiet_bind; [now apply_quiet_call|]. intro.
  apply quiet_bind; [apply quiet_render|]. intro.
  apply quiet_bind; [now apply_quiet_call|]. intro.
  now apply_quiet_call.
Qed.

Lemma blind_inside_attempt : blind_to_probes inside_attempt.
Proof. intros page selector. reflexivity. Qed.

Lemma blind_no_fill : blind_to_probes no_fill.
Proof. intros page selector. reflexivity. Qed.


Lemma quiet_submit_and_classify self page target c pass_sel submit_sel
  success_indicator wait_after_submit :
  quiet inside_attempt
    (submit_and_classify self page target c pass_sel submit_sel
       success_indicator wait_after_submit).
Proof.
  unfold submit_and_classify.
  apply quiet_bind.
  { destruct (nonempty submit_sel); now apply_quiet_call. }
  intro. apply quiet_bind; [now apply_quiet_call|]. intro.
  apply quiet_bind; [now apply quiet_save_screenshot|]. intro shot.
  apply quiet_bind; [apply quiet_verify, blind_inside_attempt|].
  intros [|]; (apply quiet_bind; [|intro; apply quiet_LoginResult_init]).
  - apply quiet_logger_success.
  - apply quiet_logger_failed.
Qed.

Lemma quiet_attempt_steps self page target c u p cs s success_indicator
  wait_after_submit :
  quiet inside_attempt
    (attempt_steps self page target c u p cs s success_indicator
       wait_after_submit).
Proof.
  unfold attempt_steps.
  apply quiet_bind; [now apply quiet_navigate|]. intro.
  apply quiet_bind;
    [apply quiet_resolve_selectors, blind_inside_attempt|]. intro sels.
  destruct (nonempty (sel_username sels)) as [user_sel|];
    [|apply quiet_bind; [apply quiet_render|];
      intro; apply quiet_LoginResult_init].
  destruct (nonempty (sel_password sels)) as [pass_sel|];
    [|apply quiet_bind; [apply quiet_render|];
      intro; apply quiet_LoginResult_init].
  apply quiet_bind.
  { unfold fill_credentials. quiet_auto. }
  intro. destruct (nonempty (sel_captcha sels)) as [captcha_sel|];
    [|apply quiet_submit_and_classify].
  apply quiet_bind; [apply quiet_render|]. intro.
  apply quiet_bind.
  { apply quiet_solve_captcha; [apply blind_inside_attempt|reflexivity..]. }
  intros text. destruct (nonempty text) as [solved|].
  - apply quiet_bind; [now apply_quiet_call|]. intro.
    apply quiet_bind; [now apply_quiet_call|]. intro.
    apply quiet_submit_and_classify.
  - apply quiet_bind; [apply quiet_render|]. intro.
    apply quiet_bind; [now apply quiet_save_screenshot|]. intro.
    apply quiet_LoginResult_init.
Qed.

Lemma quiet_on_exception self page target c e :
  quiet inside_attempt (on_exception self page target c e).
Proof.
  unfold on_exception. destruct e as [text|text];
    (apply quiet_bind; [apply quiet_render|intro]);
    (apply quiet_bind; [|intro; apply quiet_LoginResult_init]);
    (destruct page as [p|]; [|apply quiet_ret]);
    (apply quiet_bind; [now apply quiet_save_screenshot|]);
    intro; apply quiet_ret.
Qed.

End AttemptParts.


Section AttemptRuns.
Context {E : Env}.

Lemma LoginResult_init_run st c target msg shot w :
  LoginResult_init st c target msg shot w =
    (Ok {| status := st; credential := c; url := target; message := msg;
           screenshot_path := shot; timestamp := clock w |}, w, []).
Proof. reflexivity. Qed.

Lemma do_call_events c w : events (do_call c w) = [Did c].
Proof. unfold do_call. now destruct (perform c w). Qed.

Lemma do_call_ok c w a w1 :
  perform c w = (Ok a, w1) -> do_call c w = (Ok a, w1, [Did c]).
Proof. intros H. unfold do_call. now rewrite H. Qed.



Lemma resolve_selectors_run page u p c s w :
  exists sels evs, resolve_selectors page u p c s w = (Ok sels, w, evs).
Proof.
  unfold resolve_selectors.
  destruct (negb (truthy u) || negb (truthy p)).
  - destruct (detect_login_form_run page w) as [evs R].
    eexists. eexists. eapply run_bind_ok; [exact R|reflexivity].
  - eexists. eexists. reflexivity.
Qed.



Lemma attempt_login_opened self target c u p cs s ind wait w page w1 :
  perform NewPage w = (Ok page, w1) ->
  attempt_login self target c u p cs s ind wait w =
    let run :=
      try_finally
        (try_except
           (attempt_steps self page target c u p cs s ind wait)
           (on_exception self (Some page) target c))
        (do_call (Close page)) w1 in
    (outcome run, final run, Did NewPage :: events run).
Proof.
  intros Hopen. unfold attempt_login, bind, attempt, new_page, do_call at 1.
  rewrite Hopen. cbn.
  now destruct (try_finally _ _ w1) as [[r w2] t].
Qed.

Lemma attempt_login_run_ok self target c u p cs s ind wait w page w1 r w2 t w3 :
  perform NewPage w = (Ok page, w1) ->
  attempt_steps self page target c u p cs s ind wait w1 = (Ok r, w2, t) ->
  perform (Close page) w2 = (Ok tt, w3) ->
  attempt_login self target c u p cs s ind wait w =
    (Ok r, w3, Did NewPage :: t ++ [Did (Close page)]).
Proof.
  intros Hopen Hsteps Hclose.
  rewrite (attempt_login_opened _ _ _ _ _ _ _ _ _ _ Hopen).
  erewrite run_finally;
    [reflexivity | apply run_try_ok; exact Hsteps
    | exact (do_call_ok (Close page) w2 Hclose)].
Qed.

Lemma returns_save_screenshot self page user suffix :
  returns (_save_screenshot self page user suffix).
Proof. apply returns_try. intro e. apply returns_ret. Qed.

Lemma returns_LoginResult_init st c target msg shot :
  returns (LoginResult_init st c target msg shot).
Proof.
  unfold LoginResult_init.
  apply returns_bind; [apply returns_observe|intro; apply returns_ret].
Qed.

Lemma returns_resolve_selectors page u p c s :
  returns (resolve_selectors page u p c s).
Proof.
  intro w. destruct (resolve_selectors_run page u p c s w) as (sels & evs & R).
  exists sels. now rewrite R.
Qed.

(** The messages of an attempt that carry the URL and the username, one
    by one. *)
Lemma attempt_messages_render target c :
  forallb renders (attempt_messages target c) = true ->
  renders ("Navigating to: " ++ target) = true /\
  returns (logger_success ("✓ " ++ username c ++ " @ " ++ target)) /\
  returns (logger_failed ("✗ " ++ username c ++ " @ " ++ target)).
Proof.
  cbn [attempt_messages forallb]. intros H.
  repeat (apply andb_prop in H as [? H]).
  split; [assumption|]. split.
  - unfold logger_success, logger_info.
    apply returns_bind; [|intro]; now apply returns_render.
  - unfold logger_failed, logger_error.
    apply returns_bind; [|intro]; now apply returns_render.
Qed.

(** When the messages that carry the URL and the username render, the
    body of an attempt only raises what a call to the browser or to the
    OCR has raised. *)
Lemma attempt_steps_throws self page target c u p cs s ind wait :
  forallb renders (attempt_messages target c) = true ->
  forall Q : exn -> Prop,
    (forall k w e w1, perform k w = (Raise e, w1) -> Q e) ->
    throws Q (attempt_steps self page target c u p cs s ind wait).
Proof.
  intros Hmsg Q HQ.
  destruct (attempt_messages_render _ _ Hmsg) as (Hnav & Hwon & Hlost).
  assert (Hcall : forall k, throws Q (do_call k))
    by (intro k; apply throws_call, HQ).
  assert (Hsubmit : forall pass_sel submit_sel,
            throws Q (submit_and_classify self page target c pass_sel
                        submit_sel ind wait)).
  { intros pass_sel submit_sel. unfold submit_and_classify.
    apply throws_bind; [destruct (nonempty submit_sel); apply_throws_call Hcall|]. intro.
    apply throws_bind; [apply_throws_call Hcall|]. intro.
    apply throws_bind;
      [apply throws_returns, returns_save_screenshot|]. intro shot.
    apply throws_bind; [apply throws_returns, returns_or_else|].
    intros [|];
      (apply throws_bind;
       [apply throws_returns; assumption
       |intro; apply throws_returns, returns_LoginResult_init]). }
  unfold attempt_steps, navigate.
  apply throws_bind.
  { apply throws_bind; [apply_throws_call Hcall|]. intro.
    apply throws_bind; [now apply throws_render|]. intro.
    apply throws_bind; [apply_throws_call Hcall|]. intro. apply_throws_call Hcall. }
  intro. apply throws_bind;
    [apply throws_returns, returns_resolve_selectors|]. intro sels.
  assert (Hmissing :
    throws Q
      (logger_error "Username or password field not found";;
       LoginResult_init ELEMENT_NOT_FOUND c target
         "Username or password field not found" None)).
  { apply throws_bind; [now apply throws_render|].
    intro. apply throws_returns, returns_LoginResult_init. }
  destruct (nonempty (sel_username sels)) as [user_sel|]; [|exact Hmissing].
  destruct (nonempty (sel_password sels)) as [pass_sel|]; [|exact Hmissing].
  apply throws_bind.
  { unfold fill_credentials. repeat (apply throws_bind; [apply_throws_call Hcall|intro]).
    apply_throws_call Hcall. }
  intro. destruct (nonempty (sel_captcha sels)) as [captcha_sel|];
    [|apply Hsubmit].
  apply throws_bind; [now apply throws_render|]. intro.
  apply throws_bind; [apply throws_returns, returns_or_else|]. intros text.
  destruct (nonempty text) as [solved|].
  - apply throws_bind; [apply_throws_call Hcall|]. intro.
    apply throws_bind; [apply_throws_call Hcall|]. intro. apply Hsubmit.
  - apply throws_bind; [now apply throws_render|]. intro.
    apply throws_bind; [apply throws_returns, returns_save_screenshot|].
    intro. apply throws_returns, returns_LoginResult_init.
Qed.

(** The handlers when no page could be opened. *)
Lemma on_exception_without_page self target c e w :
  on_exception self None target c e w =
    (match rendering (handler_message e) with
     | Some failure => Raise (Exception failure)
     | None =>
         Ok {| status := match e with
                         | PlaywrightTimeout _ => TIMEOUT
                         | Exception _ => ERROR
                         end;
               credential := c; url := target;
               message := handler_message e;
               screenshot_path := None; timestamp := clock w |}
     end, w, []).
Proof.
  destruct e as [text|text]; unfold on_exception, logger_error, bind at 1;
    rewrite render_run; cbn [handler_message]; now destruct (rendering _).
Qed.

Lemma attempt_login_unopened self target c u p cs s ind wait w e w1 :
  perform NewPage w = (Raise e, w1) ->
  attempt_login self target c u p cs s ind wait w =
    (outcome (on_exception self None target c e w1),
     final (on_exception self None target c e w1),
     Did NewPage :: events (on_exception self None target c e w1)).
Proof.
  intros Hopen. unfold attempt_login, bind at 1, attempt, new_page, do_call at 1.
  rewrite Hopen. now destruct (on_exception self None target c e w1) as [[r w2] t2].
Qed.

(** The handlers return when their message renders. *)
Lemma on_exception_returns self page target c e :
  renders (handler_message e) = true ->
  returns (on_exception self page target c e).
Proof.
  intros He. unfold on_exception.
  destruct e as [text|text]; cbn [handler_message] in He;
    (apply returns_bind; [now apply returns_render|intro]);
    (apply returns_bind; [|intro; apply returns_LoginResult_init]);
    (destruct page as [p0|]; [|apply returns_ret]);
    (apply returns_bind; [apply returns_save_screenshot|]);
    intro; apply returns_ret.
Qed.

(** With a page that closes without raising and messages that render, an
    attempt always returns a result. *)
Lemma attempt_login_returns self target c u p cs s ind wait :
  page_close_succeeds ->
  failures_render ->
  forallb renders (attempt_messages target c) = true ->
  returns (attempt_login self target c u p cs s ind wait).
Proof.
  intros Hclose Hfail Hmsg w.
  unfold attempt_login, bind at 1, attempt, new_page, do_call at 1.
  destruct (perform NewPage w) as [[page|e] w1] eqn:Hopen.
  - assert (Hrun : returns
              (try_finally
                 (try_except
                    (attempt_steps self page target c u p cs s ind wait)
                    (on_exception self (Some page) target c))
                 (do_call (Close page)))).
    { apply returns_finally.
      - apply (@returns_try_throws _ _
                 (fun e => renders (handler_message e) = true)).
        + apply attempt_steps_throws; [exact Hmsg|exact Hfail].
        + intros e He. now apply on_exception_returns.
      - intro w0. destruct (Hclose page w0) as [w2 Hw].
        exists tt. unfold do_call. now rewrite Hw. }
    destruct (Hrun w1) as [a Ha].
    destruct (try_finally _ _ w1) as [[r w2] t2]. cbn in Ha. subst r.
    now exists a.
  - pose proof (Hfail NewPage w e w1 Hopen) as He.
    destruct (on_exception_returns self None target c e He w1) as [a Ha].
    destruct (on_exception self None target c e w1) as [[r w2] t2].
    cbn in Ha. subst r. now exists a.
Qed.

End AttemptRuns.

Section AttemptClaims.
Context {E : Env}.

(** C5.  The page has been opened and driven to the form.  If, once the
    selectors left out by the caller have been taken from the detection,
    the username selector or the password selector is still missing,
    [attempt_login] returns a result whose status is ELEMENT_NOT_FOUND,
    for the credential it was given, and [fill] was not called on any
    field during the attempt.  (The page is assumed to close without
    raising.) *)
Theorem missing_selector_is_element_not_found
  self target c u p cs s ind wait w page w1 w2 t2 sels :
  page_close_succeeds ->
  perform NewPage w = (Ok page, w1) ->
  navigate self page target w1 = (Ok tt, w2, t2) ->
  outcome (resolve_selectors page u p cs s w2) = Ok sels ->
  truthy (sel_username sels) = false \/ truthy (sel_password sels) = false ->
  exists result w' evs,
    attempt_login self target c u p cs s ind wait w = (Ok result, w', evs) /\
    status result = ELEMENT_NOT_FOUND /\
    credential result = c /\
    screenshot_path result = None /\
    forallb no_fill evs = true.
Proof.
  intros Hclose Hopen Hnav Hres Habsent.
  destruct (resolve_selectors_run page u p cs s w2) as (sels' & t3 & R3).
  rewrite R3 in Hres. cbn in Hres. injection Hres as ->.
  destruct (Hclose page w2) as [w3 Hw3].
  assert (Q2 : forallb no_fill t2 = true)
    by (eapply quiet_run; [|exact Hnav];
        apply quiet_navigate; intros; reflexivity).
  assert (Q3 : forallb no_fill t3 = true)
    by (eapply quiet_run; [|exact R3];
        apply quiet_resolve_selectors, blind_no_fill).
  eexists. exists w3. eexists. split.
  - eapply attempt_login_run_ok; [exact Hopen| |exact Hw3].
    unfold attempt_steps.
    eapply run_bind_ok; [exact Hnav|].
    eapply run_bind_ok; [exact R3|].
    unfold truthy in Habsent.
    destruct (nonempty (sel_username sels)), (nonempty (sel_password sels));
      try (destruct Habsent; discriminate); apply LoginResult_init_run.
  - cbn. rewrite !forallb_app, Q2, Q3. now repeat split.
Qed.


(** C9.  Whatever the attempt does and however it ends, with a result
    of any status or with an exception of the logger, a page that was
    opened for it is closed by the last call of the attempt, and no page
    is opened or closed in between; when [attempt_login] returns a
    result, of any status, that call has succeeded.  When no page could
    be opened, the attempt makes no other call: it returns a result
    without a screenshot when the message of its handler renders, and
    raises the exception of the logger when it does not. *)
Theorem page_is_closed_on_every_exit self target c u p cs s ind wait w :
  (forall page w1,
     perform NewPage w = (Ok page, w1) ->
     exists mid,
       events (attempt_login self target c u p cs s ind wait w) =
         Did NewPage :: mid ++ [Did (Close page)] /\
       forallb (fun e => negb (is_lifecycle e)) mid = true /\
       (forall result,
          outcome (attempt_login self target c u p cs s ind wait w)
            = Ok result ->
          exists before,
            perform (Close page) before =
              (Ok tt, final (attempt_login self target c u p cs s ind wait w))))
  /\
  (forall e w1,
     perform NewPage w = (Raise e, w1) ->
     events (attempt_login self target c u p cs s ind wait w) = [Did NewPage] /\
     match rendering (handler_message e) with
     | None =>
         exists result,
           outcome (attempt_login self target c u p cs s ind wait w)
             = Ok result /\
           screenshot_path result = None
     | Some failure =>
         outcome (attempt_login self target c u p cs s ind wait w)
           = Raise (Exception failure)
     end).
Proof.
  split.
  - intros page w1 Hopen.
    rewrite (attempt_login_opened _ _ _ _ _ _ _ _ _ _ Hopen).
    pose proof (@quiet_try _ _ inside_attempt _ _
                  (quiet_attempt_steps self page target c u p cs s ind wait)
                  (quiet_on_exception self (Some page) target c) w1) as Hq.
    unfold try_finally.
    destruct (try_except _ _ w1) as [[r w2] mid]. cbn in Hq.
    pose proof (do_call_events (Close page) w2) as Hev.
    unfold do_call in *.
    destruct (perform (Close page) w2) as [[[]|e] w3] eqn:Hclose;
      cbn in *; exists mid; (split; [reflexivity|]); split;
      try (rewrite forallb_forall in *; intros x Hx;
           specialize (Hq x Hx); now destruct x as [[]| | | | |]).
    + intros result _. now exists w2.
    + intros result Hr. discriminate.
  - intros e w1 Hopen.
    rewrite (attempt_login_unopened _ _ _ _ _ _ _ _ _ _ Hopen).
    rewrite on_exception_without_page.
    destruct (rendering (handler_message e)) as [failure|]; cbn;
      (split; [reflexivity|]);
      [reflexivity|eexists; split; reflexivity].
Qed.

End AttemptClaims.

(** C5 on an example: a password field but no field for the username. *)
Lemma missing_selector_is_element_not_found_witness :
  exists result w' evs,
    attempt_login (E := scripted) automation0 login_url alice
      None None None None None 3000 no_username_form = (Ok result, w', evs) /\
    status result = ELEMENT_NOT_FOUND /\
    credential result = alice /\
    screenshot_path result = None /\
    forallb no_fill evs = true.
Proof.
  eapply (missing_selector_is_element_not_found (E := scripted)
            automation0 login_url alice None None None None None 3000
            no_username_form (page := 7)).
  - intros p w. now exists w.
  - reflexivity.
  - reflexivity.
  - reflexivity.
  - left. reflexivity.
Defined.


(** C9 on an example: the attempt on [plain_form] ends with the closing
    of page 7. *)
Lemma page_is_closed_on_every_exit_witness :
  exists mid,
    events (attempt_login (E := scripted) automation0 login_url alice
              None None None None None 3000 plain_form) =
      Did NewPage :: mid ++ [Did (Close 7)] /\
    forallb (fun e => negb (is_lifecycle e)) mid = true.
Proof.
  destruct (proj1 (page_is_closed_on_every_exit (E := scripted)
                     automation0 login_url alice None None None None None
                     3000 plain_form) 7 plain_form eq_refl)
    as (mid & Hev & Hmid & _).
  now exists mid.
Defined.

(** ** The batch runners *)

Lemma signals_app t1 t2 : signals (t1 ++ t2) = signals t1 ++ signals t2.
Proof.
  induction t1 as [|e rest IH]; [reflexivity|].
  destruct e; cbn; now rewrite IH.
Qed.

Lemma marks_app t1 t2 : marks (t1 ++ t2) = marks t1 ++ marks t2.
Proof. apply filter_app. Qed.

Lemma steps_app t1 t2 : steps (t1 ++ t2) = steps t1 ++ steps t2.
Proof. apply filter_app. Qed.

Lemma inside_attempt_silent t :
  forallb inside_attempt t = true ->
  marks t = [] /\ signals t = [] /\ steps t = [].
Proof.
  induction t as [|e rest IH]; [now repeat split|].
  cbn [forallb]. intros H. apply andb_prop in H as [He Hrest].
  destruct (IH Hrest) as (IHm & IHs & IHt).
  destruct e as [[]| | | | |]; try discriminate; cbn; now repeat split.
Qed.

Section Batch.
Context {E : Env}.

Lemma ensures_ret (A : Type) (Q : A -> Prop) a : Q a -> ensures Q (ret a).
Proof. intros HQ w b w1 t [= <- _ _]. exact HQ. Qed.

Lemma ensures_bind (A B : Type) (Q : B -> Prop) (m : M A) (k : A -> M B) :
  (forall a, ensures Q (k a)) -> ensures Q (bind m k).
Proof.
  intros Hk w b w2 t. unfold bind.
  destruct (m w) as [[[a|e] w1] t1]; [|discriminate].
  destruct (k a w1) as [[r2 w3] t2] eqn:R.
  intros [= -> _ _]. exact (Hk a w1 b w3 t2 R).
Qed.

Lemma ensures_try (A : Type) (Q : A -> Prop) (body : M A) handler :
  ensures Q body -> (forall e, ensures Q (handler e)) ->
  ensures Q (try_except body handler).
Proof.
  intros Hb Hh w b w2 t. unfold try_except.
  destruct (body w) as [[[a|e] w1] t1] eqn:R.
  - intros [= <- _ _]. exact (Hb w a w1 t1 R).
  - destruct (handler e w1) as [[r2 w3] t2] eqn:R2.
    intros [= -> _ _]. exact (Hh e w1 b w3 t2 R2).
Qed.

Lemma ensures_finally (A : Type) (Q : A -> Prop) (body : M A) fin :
  ensures Q body -> ensures Q (try_finally body fin).
Proof.
  intros Hb w b w2 t. unfold try_finally.
  destruct (body w) as [[r w1] t1] eqn:R.
  destruct (fin w1) as [[[u|e] w3] t2]; [|discriminate].
  intros [= -> _ _]. exact (Hb w b w1 t1 R).
Qed.

Lemma ensures_init st c target msg shot :
  ensures (fun r => credential r = c) (LoginResult_init st c target msg shot).
Proof. intros w a w1 t [= <- _ _]. reflexivity. Qed.

(** Every result of an attempt carries the credential of the attempt. *)
Lemma attempt_login_credential self target c u p cs s ind wait :
  ensures (fun r => credential r = c)
    (attempt_login self target c u p cs s ind wait).
Proof.
  assert (Hh : forall page e,
            ensures (fun r => credential r = c)
              (on_exception self page target c e)).
  { intros page e. unfold on_exception.
    destruct e; do 2 (apply ensures_bind; intro); apply ensures_init. }
  assert (Hs : forall page pass_sel submit_sel,
            ensures (fun r => credential r = c)
              (submit_and_classify self page target c pass_sel submit_sel
                 ind wait)).
  { intros page pass_sel submit_sel. unfold submit_and_classify.
    do 4 (apply ensures_bind; intro).
    match goal with |- ensures _ (if ?b then _ else _) => destruct b end;
      apply ensures_bind; intro; apply ensures_init. }
  unfold attempt_login. apply ensures_bind. intros [page|e]; [|apply Hh].
  apply ensures_finally, ensures_try; [|intro; apply Hh].
  unfold attempt_steps.
  apply ensures_bind. intro. apply ensures_bind. intro sels.
  destruct (nonempty (sel_username sels));
    [|apply ensures_bind; intro; apply ensures_init].
  destruct (nonempty (sel_password sels));
    [|apply ensures_bind; intro; apply ensures_init].
  apply ensures_bind. intro.
  destruct (nonempty (sel_captcha sels)); [|apply Hs].
  apply ensures_bind. intro.
  apply ensures_bind. intros text. destruct (nonempty text).
  - do 2 (apply ensures_bind; intro). apply Hs.
  - do 2 (apply ensures_bind; intro). apply ensures_init.
Qed.

(** The events of an attempt: the opening of the page, events of the
    body and the handlers, and the closing of the page if one was
    opened. *)
Lemma attempt_login_shape self target c u p cs s ind wait w :
  exists mid tail,
    events (attempt_login self target c u p cs s ind wait w) =
      Did NewPage :: mid ++ tail /\
    forallb inside_attempt mid = true /\
    (tail = [] \/ exists page, tail = [Did (Close page)]).
Proof.
  destruct (perform NewPage w) as [[page|e] w1] eqn:Hopen.
  - rewrite (attempt_login_opened _ _ _ _ _ _ _ _ _ _ Hopen).
    pose proof (@quiet_try _ _ inside_attempt _ _
                  (quiet_attempt_steps self page target c u p cs s ind wait)
                  (quiet_on_exception self (Some page) target c) w1) as Hq.
    unfold try_finally.
    destruct (try_except _ _ w1) as [[r w2] mid]. cbn in Hq.
    pose proof (do_call_events (Close page) w2) as Hev.
    destruct (do_call (Close page) w2) as [[[[]|e] w3] t3];
      cbn in Hev; subst t3; cbn; exists mid, [Did (Close page)];
      (split; [reflexivity|]); split; eauto.
  - exists [], [].
    rewrite (attempt_login_unopened _ _ _ _ _ _ _ _ _ _ Hopen).
    rewrite on_exception_without_page. cbn. auto.
Qed.

Lemma attempt_login_marks self target c u p cs s ind wait w :
  marks (events (attempt_login self target c u p cs s ind wait w)) =
    [Did NewPage] /\
  signals (events (attempt_login self target c u p cs s ind wait w)) = [] /\
  steps (events (attempt_login self target c u p cs s ind wait w)) =
    [Did NewPage].
Proof.
  destruct (attempt_login_shape self target c u p cs s ind wait w)
    as (mid & tail & -> & Hmid & Htail).
  destruct (inside_attempt_silent _ Hmid) as (Hm & Hs & Ht).
  cbn. rewrite marks_app, signals_app, steps_app, Hm, Hs, Ht.
  destruct Htail as [->|[page ->]]; now repeat split.
Qed.

(** One attempt, as the loops see it. *)
Lemma attempt_login_step self target c u p cs s ind wait w :
  page_close_succeeds ->
  failures_render ->
  forallb renders (attempt_messages target c) = true ->
  exists r w1 t,
    attempt_login self target c u p cs s ind wait w = (Ok r, w1, t) /\
    credential r = c /\ marks t = [Did NewPage] /\ signals t = [] /\
    steps t = [Did NewPage].
Proof.
  intros Hclose Hfail Hmsg.
  destruct (returns_run w (@attempt_login_returns _ self target c u p cs s
                             ind wait Hclose Hfail Hmsg))
    as (r & w1 & t & R).
  pose proof (attempt_login_marks self target c u p cs s ind wait w)
    as (Hm & Hs & Ht).
  rewrite R in Hm, Hs, Ht. exists r, w1, t. repeat split; auto.
  eapply attempt_login_credential. exact R.
Qed.

(** The two lines of [credential_attempt], for any status. *)
Lemma credential_attempt_returns target user :
  forallb renders
    (flat_map (fun st =>
                 [ attempt_line target user (status_value st);
                   attempt_mark target user (status_value st) ])
       statuses) = true ->
  forall st, returns (credential_attempt target user (status_value st)).
Proof.
  cbn [statuses flat_map app forallb]. intros H st.
  repeat (apply andb_prop in H as [? H]).
  unfold credential_attempt, logger_info.
  destruct st; (apply returns_bind; [|intro]); now apply returns_render.
Qed.

Lemma batch_messages_render target total idx c rest :
  forallb renders (batch_messages target total idx (c :: rest)) = true ->
  returns (progress_info idx total ("Testing: " ++ username c)) /\
  forallb renders (attempt_messages target c) = true /\
  (forall st,
     returns (credential_attempt target (username c) (status_value st))) /\
  forallb renders (batch_messages target total (S idx) rest) = true.
Proof.
  cbn [batch_messages]. rewrite !forallb_app. intros H.
  apply andb_prop in H as [Hprogress H].
  apply andb_prop in H as [Hattempt H].
  apply andb_prop in H as [Hstatus Hrest].
  cbn [forallb] in Hprogress.
  apply andb_prop in Hprogress as [H1 Hprogress].
  apply andb_prop in Hprogress as [H2 _].
  split; [|split; [exact Hattempt|split; [|exact Hrest]]].
  - unfold progress_info, logger_info.
    apply returns_bind; [|intro]; now apply returns_render.
  - now apply credential_attempt_returns.
Qed.

Lemma batch_messages_attempts target total credentials :
  forall idx,
    forallb renders (batch_messages target total idx credentials) = true ->
    Forall (fun c => forallb renders (attempt_messages target c) = true)
      credentials.
Proof.
  induction credentials as [|c rest IH]; intros idx H; constructor.
  - now apply (@batch_messages_render target total idx c rest) in H.
  - apply (IH (S idx)).
    now apply (@batch_messages_render target total idx c rest) in H.
Qed.

Lemma batch_login_loop_run self target u p cs s ind delay total :
  page_close_succeeds ->
  failures_render ->
  forall credentials idx acc w,
    forallb renders (batch_messages target total idx credentials) = true ->
    idx + length credentials = S total ->
    exists results w' evs,
      batch_login_loop self target u p cs s ind delay total idx credentials
        acc w = (Ok results, w', evs) /\
      map credential results = map credential acc ++ credentials /\
      marks evs = interleaved delay (length credentials) /\
      signals evs = [].
Proof.
  intros Hclose Hfail.
  induction credentials as [|c rest IH]; intros idx acc w Hmsg Hidx.
  - exists acc, w, []. cbn. now rewrite app_nil_r.
  - destruct (@batch_messages_render _ _ _ _ _ Hmsg)
      as (Hprogress & Hattempt & Hstatus & Hrest).
    destruct (returns_run w Hprogress) as ([] & wp & tp & Rp).
    unfold progress_info, logger_info in Rp.
    destruct (render_twice_run _ _ _ Rp) as [-> ->].
    destruct (@attempt_login_step self target c u p cs s ind 3000 w Hclose
                Hfail Hattempt) as (r & w1 & t1 & R1 & Hc & Hm1 & Hs1 & _).
    destruct (returns_run w1 (Hstatus (status r))) as ([] & wa & ta & Ra).
    unfold credential_attempt, logger_info in Ra.
    destruct (render_twice_run _ _ _ Ra) as [-> ->].
    cbn [length] in Hidx. cbn [batch_login_loop].
    destruct rest as [|c2 rest2].
    + assert (Hlt : (idx <? total)%nat = false)
        by (apply Nat.ltb_ge; cbn in Hidx; lia).
      rewrite Hlt.
      exists (acc ++ [r]), w1, ([] ++ t1 ++ [] ++ [] ++ []).
      split; [|split; [|split]].
      * eapply run_bind_ok; [exact Rp|].
        eapply run_bind_ok; [exact R1|].
        eapply run_bind_ok; [exact Ra|].
        eapply run_bind_ok; reflexivity.
      * rewrite map_app. cbn. now rewrite Hc.
      * rewrite !marks_app, Hm1. reflexivity.
      * rewrite !signals_app, Hs1. reflexivity.
    + assert (Hlt : (idx <? total)%nat = true)
        by (apply Nat.ltb_lt; cbn in Hidx; lia).
      rewrite Hlt.
      destruct (IH (S idx) (acc ++ [r]) (sleep delay w1) Hrest)
        as (results & w' & evs & R & Hmap & Hmarks & Hsig);
        [cbn in *; lia|].
      exists results, w', ([] ++ t1 ++ [] ++ [Slept delay] ++ evs).
      split; [|split; [|split]].
      * eapply run_bind_ok; [exact Rp|].
        eapply run_bind_ok; [exact R1|].
        eapply run_bind_ok; [exact Ra|].
        eapply run_bind_ok; [reflexivity|exact R].
      * rewrite Hmap, map_app, <- app_assoc. cbn. now rewrite Hc.
      * rewrite !marks_app, Hm1, Hmarks. reflexivity.
      * rewrite !signals_app, Hs1, Hsig. reflexivity.
Qed.

(** The worker.  [k] attempts are made; [tail] is the delay, if any, that
    follows the last of them; [ending] is what the worker does after the
    last result is signalled. *)
Lemma async_run_loop_run automation target u p cs s ind delay total :
  page_close_succeeds ->
  failures_render ->
  forall credentials idx acc w,
    Forall (fun c => forallb renders (attempt_messages target c) = true)
      credentials ->
    idx + length credentials = S total ->
    exists results w' evs k tail ending,
      _async_run_loop automation target u p cs s ind delay total idx
        credentials acc w = (Ok results, w', evs) /\
      results = acc ++ signals evs /\
      k <= length credentials /\
      map credential (signals evs) = firstn k credentials /\
      marks evs = interleaved delay k ++ tail /\
      (tail = [] \/ tail = [Slept delay] /\ 0 < k < length credentials) /\
      (k < length credentials -> is_running w' = false) /\
      (is_running w = false -> k = 0 /\ tail = []) /\
      (never_cancelled -> k = length credentials /\ tail = []) /\
      length (signals evs) = k /\
      steps evs = attempts_and_delays delay (signals evs) ++ ending /\
      (ending = [] /\ k = length credentials \/
       ending = [FlagRead false] /\ k = 0 /\ 0 < length credentials \/
       ending = [FlagRead false; FlagRead false] /\
         0 < k < length credentials \/
       ending = [FlagRead true; Slept delay; FlagRead false] /\
         0 < k < length credentials).
Proof.
  intros Hclose Hfail.
  induction credentials as [|c rest IH]; intros idx acc w Hmsg Hidx.
  - exists acc, w, [], 0, [], []. cbn. rewrite app_nil_r.
    conjs; auto; lia.
  - destruct (is_running w) eqn:Hrun.
    2:{ exists acc, w, [FlagRead false], 0, [], [FlagRead false].
        cbn [_async_run_loop]. unfold bind at 1, read_flag.
        rewrite Hrun. cbn. rewrite app_nil_r.
        conjs; auto; try lia.
        - intros Hnever. specialize (Hnever w). congruence.
        - right. left. repeat split; lia. }
    inversion Hmsg as [|c0 rest0 Hc0 Hrest0]; subst c0 rest0.
    destruct (@attempt_login_step automation target c u p cs s ind 3000 w
                Hclose Hfail Hc0)
      as (r & w1 & t1 & R1 & Hc & Hm1 & Hs1 & Ht1).
    set (more := (idx <? total)%nat).
    set (pause := more && is_running w1).
    set (w2 := if pause then sleep delay w1 else w1).
    set (t2 := if more
               then FlagRead (is_running w1) ::
                    (if is_running w1 then [Slept delay] else [])
               else []).
    destruct (IH (S idx) (acc ++ [r]) w2 Hrest0)
      as (results & w' & evs & k & tail & ending & R & Hres & Hk & Hmap &
          Hmarks & Htail & Hstop & Hidle & Hfull & Hlen & Hsteps & Hending);
      [cbn in *; lia|].
    assert (Hstep :
      _async_run_loop automation target u p cs s ind delay total idx
        (c :: rest) acc w =
      (Ok results, w', FlagRead true :: t1 ++ [ResultSignal r] ++ t2 ++ evs)).
    { cbn [_async_run_loop]. unfold bind at 1, read_flag at 1.
      rewrite Hrun. cbn [negb].
      assert (Hbody :
        (result <- attempt_login automation target c u p cs s ind 3000;;
         emit (ResultSignal result);;
         (if (idx <? total)%nat
          then running <- read_flag;;
               if running then asyncio_sleep delay else ret tt
          else ret tt);;
         _async_run_loop automation target u p cs s ind delay total (S idx)
           rest (acc ++ [result])) w =
        (Ok results, w', t1 ++ [ResultSignal r] ++ t2 ++ evs)).
      { eapply run_bind_ok; [exact R1|].
        eapply run_bind_ok; [reflexivity|].
        assert (Hpause :
          (if (idx <? total)%nat
           then running <- read_flag;;
                if running then asyncio_sleep delay else ret tt
           else ret tt) w1 = (Ok tt, w2, t2)).
        { unfold w2, t2, pause, more.
          destruct (idx <? total)%nat; [|reflexivity].
          unfold bind, read_flag. now destruct (is_running w1). }
        eapply run_bind_ok; [exact Hpause|exact R]. }
      now rewrite Hbody. }
    assert (Hsig : signals (FlagRead true :: t1 ++ [ResultSignal r] ++ t2 ++ evs)
                   = r :: signals evs).
    { cbn [signals]. rewrite !signals_app, Hs1. unfold t2.
      destruct more; [destruct (is_running w1)|]; reflexivity. }
    assert (Hmk : marks (FlagRead true :: t1 ++ [ResultSignal r] ++ t2 ++ evs)
                  = Did NewPage :: marks t2 ++ interleaved delay k ++ tail).
    { unfold marks at 1. cbn [filter is_mark]. fold (marks (t1 ++ [ResultSignal r] ++ t2 ++ evs)).
      rewrite !marks_app, Hm1, Hmarks. reflexivity. }
    assert (Hst : steps (FlagRead true :: t1 ++ [ResultSignal r] ++ t2 ++ evs)
                  = FlagRead true :: Did NewPage :: ResultSignal r ::
                    t2 ++ attempts_and_delays delay (signals evs) ++ ending).
    { unfold steps at 1. cbn [filter is_step].
      fold (steps (t1 ++ [ResultSignal r] ++ t2 ++ evs)).
      rewrite !steps_app, Ht1, Hsteps.
      assert (Ht2 : steps t2 = t2)
        by (unfold t2; destruct more; [destruct (is_running w1)|];
            reflexivity).
      rewrite Ht2. reflexivity. }
    assert (Hrest : more = negb (length rest =? 0)%nat).
    { unfold more. cbn in Hidx. destruct rest; cbn;
        [apply Nat.ltb_ge|apply Nat.ltb_lt]; cbn in Hidx; lia. }
    assert (Hresults : results = acc ++ r :: signals evs)
      by (rewrite Hres, <- app_assoc; reflexivity).
    assert (Hcreds : map credential (r :: signals evs) =
                     firstn (S k) (c :: rest))
      by (cbn; now rewrite Hmap, Hc).
    exists results, w',
      (FlagRead true :: t1 ++ [ResultSignal r] ++ t2 ++ evs), (S k).
    rewrite Hsig, Hmk, Hst, Hstep. clear Hstep.
    cbn [length attempts_and_delays].
    destruct more eqn:Hmore.
    + (* the list goes on *)
      symmetry in Hrest. apply negb_true_iff, Nat.eqb_neq in Hrest.
      destruct (is_running w1) eqn:Hrun1; unfold t2, pause in *;
        cbn [andb] in *.
      * (* the flag is set: a delay is made *)
        destruct k as [|k].
        -- assert (Hnil : signals evs = [])
             by (now apply length_zero_iff_nil).
           assert (He : ending = [FlagRead false]).
           { destruct Hending as [[_ H]|[[H _]|[[_ H]|[_ H]]]];
               [exfalso; lia|exact H|exfalso; lia|exfalso; lia]. }
           exists [Slept delay], [FlagRead true; Slept delay; FlagRead false].
           destruct Htail as [->|[_ [Hk0 _]]]; [|exfalso; lia].
           rewrite Hnil, He.
           conjs; auto; try lia; try congruence.
           ++ right. split; [reflexivity|lia].
           ++ intros _. apply Hstop. lia.
           ++ intros Hnever. destruct (Hfull Hnever) as [Hk' _]. lia.
           ++ right. right. right. split; [reflexivity|lia].
        -- destruct (signals evs) as [|r2 rs] eqn:Hsignals;
             [cbn in Hlen; lia|].
           exists tail, ending.
           conjs; auto; try lia; try congruence.
           ++ destruct Htail as [->|[-> Hk2]]; [now left|right].
              split; [reflexivity|lia].
           ++ intros Hlt2. apply Hstop. lia.
           ++ intros Hnever. destruct (Hfull Hnever) as [Hk' Ht].
              split; [lia|exact Ht].
           ++ destruct Hending as [[He Hk']|[[_ [Hk' _]]|[[He Hk']|[He Hk']]]];
                [left|exfalso; lia|right; right; left|right; right; right];
                (split; [exact He|lia]).
      * (* the flag is cleared: no delay, and the loop stops *)
        destruct (Hidle Hrun1) as [-> ->].
        assert (Hnil : signals evs = [])
          by (now apply length_zero_iff_nil).
        assert (He : ending = [FlagRead false]).
        { destruct Hending as [[_ H]|[[H _]|[[_ H]|[_ H]]]];
            [exfalso; lia|exact H|exfalso; lia|exfalso; lia]. }
        exists [], [FlagRead false; FlagRead false].
        rewrite Hnil, He.
        conjs; auto; try lia; try congruence.
        -- intros _. apply Hstop. lia.
        -- right. right. left. split; [reflexivity|lia].
    + (* the list is over *)
      symmetry in Hrest. apply negb_false_iff, Nat.eqb_eq in Hrest.
      assert (Hk0 : k = 0) by lia.
      destruct k as [|k]; [clear Hk0|discriminate].
      assert (Hnil : signals evs = [])
        by (now apply length_zero_iff_nil).
      assert (He : ending = []).
      { destruct Hending as [[H _]|[[_ [_ H]]|[[_ H]|[_ H]]]];
          [exact H|exfalso; lia|exfalso; lia|exfalso; lia]. }
      assert (Htl : tail = [])
        by (destruct Htail as [->|[_ ?]]; [reflexivity|exfalso; lia]).
      exists [], []. unfold t2. rewrite Hnil, He, Htl.
      conjs; auto; try lia; try congruence.
Qed.

End Batch.

Lemma run_bind_inv {E : Env} (A B : Type) (m : M A) (k : A -> M B) w b w2 t :
  bind m k w = (Ok b, w2, t) ->
  exists a w1 t1 t2,
    m w = (Ok a, w1, t1) /\ k a w1 = (Ok b, w2, t2) /\ t = t1 ++ t2.
Proof.
  unfold bind. destruct (m w) as [[[a|e] w1] t1]; [|discriminate].
  destruct (k a w1) as [[r2 w3] t2] eqn:Rk. intros [= -> -> <-].
  exists a, w1, t1, t2. auto.
Qed.

(** The four counts of the summary and the unsolved captchas add up to
    the number of results. *)
Lemma counts_add_up (results : list LoginResult) :
  count_status (LoginStatus_eqb SUCCESS) results +
  count_status (LoginStatus_eqb FAILED) results +
  count_status
    (fun s => existsb (LoginStatus_eqb s) [ERROR; TIMEOUT; ELEMENT_NOT_FOUND])
    results +
  count_status (LoginStatus_eqb CAPTCHA_REQUIRED) results =
  length results.
Proof.
  unfold count_status. induction results as [|r rest IH]; [reflexivity|].
  cbn in *. destruct (status r); cbn in *; lia.
Qed.

Lemma captcha_counted (results : list LoginResult) :
  In CAPTCHA_REQUIRED (map status results) ->
  0 < count_status (LoginStatus_eqb CAPTCHA_REQUIRED) results.
Proof.
  unfold count_status.
  induction results as [|r rest IH]; cbn [map In filter]; [easy|].
  intros [Hr|Hin].
  - rewrite Hr. cbn. lia.
  - specialize (IH Hin).
    destruct (LoginStatus_eqb CAPTCHA_REQUIRED (status r));
      cbn [length]; lia.
Qed.

Section BatchClaims.
Context {E : Env}.

Lemma batch_login_loop_length self target u p cs s ind delay total
  credentials :
  forall idx acc,
    ensures (fun results => length results = length acc + length credentials)
      (batch_login_loop self target u p cs s ind delay total idx credentials
         acc).
Proof.
  induction credentials as [|c rest IH]; intros idx acc; cbn.
  - apply ensures_ret. lia.
  - apply ensures_bind. intro. apply ensures_bind. intro r.
    apply ensures_bind. intro. apply ensures_bind. intro.
    intros w0 rs w1 t R. apply IH in R. rewrite length_app in R.
    cbn in R. lia.
Qed.

(** C3, as the code has it.  [batch_login] returns one result per
    credential, in the order of the credentials, and makes its delay
    between two consecutive attempts and nowhere else.

    The worker attempts the credentials in order until it finds its flag
    cleared at the top of the loop: the results it hands over are those
    of the first [k] credentials, in order, each signalled once.  Each of
    its attempts comes right after a reading of the flag that found it
    set, and after a reading that found it cleared the worker only reads
    the flag once more, at the top of the loop, and stops: it opens no
    page, signals no result and makes no delay.  Between two attempts it
    reads the flag, set, and makes its delay.  What it does after its
    last result is one of four things: nothing, when every credential
    was attempted; a reading of the cleared flag at the top of the loop,
    when it made no attempt; two readings of the cleared flag, when the
    flag was cleared during the last attempt; a reading of the flag, set,
    the delay, and a reading of the flag, cleared, when the flag was
    cleared during that delay: the run then ends with a delay that no
    attempt follows.  [k] is the number of credentials when the flag is
    never cleared, and no result is handed over when the flag is cleared
    from the start.

    (The page is assumed to close without raising, and the messages
    that the runner logs to render: those made of what the browser and
    the OCR raise, and those that carry the URL and the usernames.) *)
Theorem runners_follow_credentials
  self target credentials u p cs s ind delay w :
  page_close_succeeds ->
  failures_render ->
  (forallb renders
     (batch_messages target (length credentials) 1 credentials) = true ->
   exists results w' evs,
     batch_login self target credentials u p cs s ind delay w =
       (Ok results, w', evs) /\
     map credential results = credentials /\
     marks evs = interleaved delay (length credentials)) /\
  (Forall (fun c => forallb renders (attempt_messages target c) = true)
     credentials ->
   exists results w' evs k tail ending,
     _async_run self target credentials u p cs s ind delay w =
       (Ok results, w', evs) /\
     signals evs = results /\
     k <= length credentials /\
     length results = k /\
     map credential results = firstn k credentials /\
     marks evs = interleaved delay k ++ tail /\
     (tail = [] \/ tail = [Slept delay] /\ 0 < k < length credentials) /\
     (k < length credentials -> is_running w' = false) /\
     (never_cancelled -> k = length credentials /\ tail = []) /\
     (is_running w = false -> k = 0) /\
     steps evs = attempts_and_delays delay results ++ ending /\
     (ending = [] /\ k = length credentials \/
      ending = [FlagRead false] /\ k = 0 /\ 0 < length credentials \/
      ending = [FlagRead false; FlagRead false] /\
        0 < k < length credentials \/
      ending = [FlagRead true; Slept delay; FlagRead false] /\
        0 < k < length credentials)).
Proof.
  intros Hclose Hfail. split.
  - intros Hmsg.
    destruct (@batch_login_loop_run _ self target u p cs s ind delay
                (length credentials) Hclose Hfail credentials 1 [] w Hmsg
                eq_refl)
      as (results & w' & evs & R & Hmap & Hmarks & _).
    exists results, w'. eexists. split; [|split].
    + unfold batch_login. eapply run_bind_ok; [exact R|].
      eapply run_bind_ok; reflexivity.
    + exact Hmap.
    + rewrite marks_app, Hmarks. cbn. apply app_nil_r.
  - intros Hmsg.
    destruct (@async_run_loop_run _ self target u p cs s ind delay
                (length credentials) Hclose Hfail credentials 1 [] w Hmsg
                eq_refl)
      as (results & w' & evs & k & tail & ending & R & Hres & Hk & Hmap &
          Hmarks & Htail & Hstop & Hidle & Hfull & Hlen & Hsteps & Hending).
    cbn in Hres. subst results.
    exists (signals evs), w', evs, k, tail, ending. conjs; auto.
    intros Hrun. now apply Hidle.
Qed.

(** C10.  When [batch_login] returns, the last thing it does is to hand
    the summary to the logger: the total is the number of credentials,
    which is the number of results; the error count is the number of
    results whose status is ERROR, TIMEOUT or ELEMENT_NOT_FOUND; a
    result whose status is CAPTCHA_REQUIRED is in none of the three
    counts, so that with such a result among them the three counts add
    up to less than the total. *)
Theorem summary_leaves_captcha_uncounted
  self target credentials u p cs s ind delay w results w' evs :
  batch_login self target credentials u p cs s ind delay w =
    (Ok results, w', evs) ->
  exists before total success failed errors,
    evs = before ++ [Summary total success failed errors] /\
    total = length credentials /\
    total = length results /\
    success = length (filter (fun r => LoginStatus_eqb SUCCESS (status r))
                        results) /\
    failed = length (filter (fun r => LoginStatus_eqb FAILED (status r))
                       results) /\
    errors = length (filter (fun r => match status r with
                                      | ERROR | TIMEOUT | ELEMENT_NOT_FOUND =>
                                          true
                                      | _ => false
                                      end) results) /\
    success + failed + errors +
      length (filter (fun r => LoginStatus_eqb CAPTCHA_REQUIRED (status r))
                results) = total /\
    (In CAPTCHA_REQUIRED (map status results) ->
     success + failed + errors < total).
Proof.
  intros R. unfold batch_login in R.
  apply run_bind_inv in R as (rs & w1 & t1 & t2 & Rloop & Rsum & ->).
  cbn in Rsum. injection Rsum as <- <- <-.
  apply batch_login_loop_length in Rloop. cbn in Rloop.
  pose proof (counts_add_up rs) as Hsum.
  exists t1. eexists. eexists. eexists. eexists.
  split; [reflexivity|]. rewrite <- Rloop. conjs; try reflexivity.
  - unfold count_status. f_equal. apply filter_ext. intro r.
    now destruct (status r).
  - exact Hsum.
  - intros Hin. apply captcha_counted in Hin. cbn [existsb] in *. lia.
Qed.

End BatchClaims.

(** In the scripted environment the browser and the OCR raise texts
    without a bracket. *)
Lemma scripted_failures_render : failures_render (E := scripted).
Proof.
  intros c w e w1 H.
  destruct c; cbn in H; try discriminate.
  - destruct (slow w); [|discriminate]. now injection H as <- _.
  - destruct (ocr_text w); [discriminate|]. now injection H as <- _.
Qed.

(** C3 on an example: two credentials on [plain_form]. *)
Lemma runners_follow_credentials_witness :
  (exists results w' evs,
     batch_login (E := scripted) automation0 login_url [alice; bob]
       None None None None None 2000 plain_form = (Ok results, w', evs) /\
     map credential results = [alice; bob] /\
     marks evs = [Did NewPage; Slept 2000; Did NewPage]) /\
  (exists results w' evs k tail ending,
     _async_run (E := scripted) automation0 login_url [alice; bob]
       None None None None None 2000 plain_form = (Ok results, w', evs) /\
     signals evs = results /\
     k <= 2 /\
     length results = k /\
     map credential results = firstn k [alice; bob] /\
     marks evs = interleaved 2000 k ++ tail /\
     (tail = [] \/ tail = [Slept 2000] /\ 0 < k < 2) /\
     (k < 2 -> running w' = false) /\
     (never_cancelled (E := scripted) -> k = 2 /\ tail = []) /\
     (running plain_form = false -> k = 0) /\
     steps evs = attempts_and_delays 2000 results ++ ending /\
     (ending = [] /\ k = 2 \/
      ending = [FlagRead false] /\ k = 0 /\ 0 < 2 \/
      ending = [FlagRead false; FlagRead false] /\ 0 < k < 2 \/
      ending = [FlagRead true; Slept 2000; FlagRead false] /\ 0 < k < 2)).
Proof.
  destruct (runners_follow_credentials (E := scripted) automation0 login_url
              [alice; bob] None None None None None 2000 plain_form
              (fun p w => ex_intro _ w eq_refl) scripted_failures_render)
    as [Hbatch Hworker].
  split.
  - apply Hbatch. vm_compute. reflexivity.
  - apply Hworker. repeat constructor.
Defined.

(** C3 as stated fails on the worker.  Two credentials; Stop is pressed
    during the delay that follows the first attempt.  The worker hands
    over the result of the first credential only, and the delay it made
    comes after its last attempt: the attempts and delays of the run are
    not those of any number of attempts with delays in between only. *)
Lemma delay_not_followed_by_attempt :
  exists results w' evs,
    _async_run (E := scripted) automation0 login_url [alice; bob]
      None None None None None 2000 stop_pressed_in_delay =
      (Ok results, w', evs) /\
    map credential results = [alice] /\
    marks evs = [Did NewPage; Slept 2000] /\
    (forall n, marks evs <> interleaved 2000 n).
Proof.
  eexists. eexists. eexists. split; [vm_compute; reflexivity|].
  split; [reflexivity|]. split; [reflexivity|].
  intros [|[|[|n]]]; cbn; discriminate.
Qed.

(** The messages have to render.  With a username that closes a tag
    that is not open, [batch_login] raises when it logs the progress of
    that credential, before the attempt; the worker, whose loop does not
    log, raises when the attempt logs its verdict, and hands over no
    result. *)
Example runners_raise_on_markup :
  (exists text w',
     batch_login (E := scripted) automation0 login_url [mallory; alice]
       None None None None None 2000 plain_form =
       (Raise (Exception text), w', [])) /\
  (exists text w' evs,
     _async_run (E := scripted) automation0 login_url [mallory; alice]
       None None None None None 2000 welcoming_form =
       (Raise (Exception text), w', evs) /\
     signals evs = [] /\
     In (Did (Click 7 "button[type='submit']")) evs).
Proof.
  split.
  - eexists. eexists. vm_compute. reflexivity.
  - eexists. eexists. eexists. split; [vm_compute; reflexivity|].
    split; [reflexivity|]. cbn. tauto.
Qed.

(** C10 on an example: two credentials on a form whose captcha the OCR
    cannot read. *)
Lemma summary_leaves_captcha_uncounted_witness :
  exists results w' evs before,
    batch_login (E := scripted) automation0 login_url [alice; bob]
      None None None None None 2000 captcha_form = (Ok results, w', evs) /\
    map status results = [CAPTCHA_REQUIRED; CAPTCHA_REQUIRED] /\
    evs = before ++ [Summary 2 0 0 0].
Proof.
  eassert (R : batch_login (E := scripted) automation0 login_url [alice; bob]
                 None None None None None 2000 captcha_form = (Ok _, _, _))
    by (vm_compute; reflexivity).
  destruct (summary_leaves_captcha_uncounted (E := scripted) _ _ _ _ _ _ _ _
              _ _ R)
    as (before & total & success & failed & errors & Hev & Htot & _ & Hs &
        Hf & He & _).
  eexists. eexists. eexists. exists before.
  split; [exact R|]. split; [reflexivity|].
  rewrite Hev, Htot, Hs, Hf, He. reflexivity.
Defined.

(** ** The scenarios of the specification, run on the scripted
    environment *)

(** Explicit selectors, no captcha, and the page moves to [/dashboard]:
    the attempt is a success with one screenshot. *)
Example scenario_dashboard :
  outcome (attempt_login (E := scripted) automation0 login_url alice
             (Some "#user") (Some "#pass") None (Some "#go") None 3000
             welcoming_form) =
    Ok {| status := SUCCESS; credential := alice; url := login_url;
          message := "Login successful";
          screenshot_path :=
            Some "screenshots/alice_1700000000_after_submit.png";
          timestamp := 1700000000 |}.
Proof. reflexivity. Qed.

(** The navigation times out: the status is TIMEOUT, a screenshot is
    taken under the tag [timeout], nothing is filled or submitted and the
    page is closed. *)
Example scenario_navigation_timeout :
  status_of (outcome (attempt_login (E := scripted) automation0 login_url
                        alice None None None None None 3000 slow_site))
    = Some TIMEOUT /\
  events (attempt_login (E := scripted) automation0 login_url alice
            None None None None None 3000 slow_site) =
    [Did NewPage; Did (SetDefaultTimeout 7 30000); Did (Goto 7 login_url);
     Did (Screenshot 7 "screenshots/alice_1700000000_timeout.png");
     Did (Close 7)].
Proof. split; reflexivity. Qed.

(** Five credentials, Stop pressed during the first delay: the worker
    hands over one result. *)
Example scenario_cancellation :
  option_map (map credential)
    (results_of (outcome (_async_run (E := scripted) automation0 login_url
                            [alice; bob; alice; bob; alice]
                            None None None None None 2000
                            stop_pressed_in_delay)))
    = Some [alice].
Proof. reflexivity. Qed.

(** ** More on the success classifier *)

Section ClassifierTable.
Context {E : Env}.

Lemma bind_assoc (A B C : Type) (m : M A) (f : A -> M B) (g : B -> M C) w :
  bind (bind m f) g w = bind m (fun a => bind (f a) g) w.
Proof.
  unfold bind. destruct (m w) as [[[a|e] w1] t1]; [|reflexivity].
  destruct (f a w1) as [[[b|e] w2] t2]; [|reflexivity].
  destruct (g b w2) as [[r w3] t3]. now rewrite app_assoc.
Qed.

Lemma bind_ext (A B : Type) (m : M A) (k1 k2 : A -> M B) w :
  (forall a w1, k1 a w1 = k2 a w1) -> bind m k1 w = bind m k2 w.
Proof.
  intros H. unfold bind. destruct (m w) as [[[a|e] w1] t1]; [|reflexivity].
  now rewrite H.
Qed.

Lemma try_ext (A : Type) (b1 b2 : M A) handler w :
  b1 w = b2 w -> try_except b1 handler w = try_except b2 handler w.
Proof. intros H. unfold try_except. now rewrite H. Qed.

(** A loop of the classifier followed by the rest of its table is the
    scan of the longer table. *)
Lemma any_present_scan page patterns answer rest default w :
  bind (any_present page patterns)
    (fun found => if found then ret answer else scan page rest default) w =
  scan page (map (fun pattern => (pattern, answer)) patterns ++ rest)
    default w.
Proof.
  revert w.
  induction patterns as [|pattern more IH]; intro w;
    cbn [any_present map app scan].
  - unfold bind, ret. cbn.
    now destruct (scan page rest default w) as [[r w1] t1].
  - rewrite bind_assoc. apply bind_ext. intros [element|] w1; cbn [is_some].
    + unfold bind, ret. reflexivity.
    + apply IH.
Qed.

Lemma stays_scan page table default : stays (scan page table default).
Proof.
  induction table as [|[pattern answer] rest IH]; cbn.
  - apply stays_ret.
  - apply stays_bind; [apply stays_query|].
    intros [element|]; cbn; [apply stays_ret|exact IH].
Qed.

(** Once its first test has failed and a URL indicator, if any, does not
    occur in the URL, the classifier is the scan of its table of probes,
    with [False] for an exception. *)
Lemma verify_as_scan page original_url success_indicator w :
  url_changed (page_url w page) original_url = false ->
  url_indicator_matches success_indicator (page_url w page) = false ->
  _verify_login_success page original_url success_indicator w =
    or_else
      (scan page (classifier_layers success_indicator)
         (negb (page_url w page =? original_url)%string))
      false w.
Proof.
  intros Hurl Hind. unfold _verify_login_success, or_else.
  apply try_ext. rewrite run_bind_observe, Hurl.
  set (current_url := page_url w page) in *.
  set (default := negb (current_url =? original_url)%string).
  assert (Htail : forall w1,
    (failed <- any_present page error_patterns;;
     if failed then ret false else
     welcomed <- any_present page success_patterns;;
     if welcomed then ret true else
     username_field <- query_selector page username_field_probe;;
     if is_some username_field then ret false else ret default) w1 =
    scan page
      (map (fun pattern => (pattern, false)) error_patterns ++
       map (fun pattern => (pattern, true)) success_patterns ++
       [(username_field_probe, false)]) default w1).
  { intros w1. rewrite <- any_present_scan. apply bind_ext.
    intros [|] w2; [reflexivity|]. now rewrite <- any_present_scan. }
  unfold indicator_matches, classifier_layers, url_indicator_matches in *.
  destruct (nonempty success_indicator) as [indicator|].
  - destruct (startswith "http" indicator); cbn [andb] in Hind.
    + rewrite Hind. cbn [app].
      unfold bind at 1, ret at 1. rewrite Htail.
      now destruct (scan page _ default w) as [[r w1] t1].
    + cbn [app scan]. rewrite bind_assoc. apply bind_ext.
      intros [element|] w1; cbn [is_some].
      * reflexivity.
      * unfold bind at 1, ret at 1. rewrite Htail.
        now destruct (scan page _ default w1) as [[r w2] t2].
  - cbn [app]. unfold bind at 1, ret at 1. rewrite Htail.
    now destruct (scan page _ default w) as [[r w1] t1].
Qed.


(** A scan that answers [True] has found a pattern whose answer is
    [True], or has fallen through to a default that is [True]. *)
Lemma scan_true page table default w w1 t :
  scan page table default w = (Ok true, w1, t) ->
  default = true \/
  exists pattern, In (pattern, true) table /\ probe_hits w page pattern = true.
Proof.
  revert w1 t.
  induction table as [|[pattern answer] rest IH]; intros w1 t; cbn [scan].
  - intros [= -> _ _]. now left.
  - unfold bind, query_selector, probe_hits.
    destruct (query w page pattern) as [[element|]|e] eqn:Hq;
      cbn [is_some]; [| |discriminate].
    + intros [= -> _ _]. right. exists pattern. rewrite Hq.
      split; [now left|reflexivity].
    + destruct (scan page rest default w) as [[r w2] t2] eqn:R.
      intros [= -> -> _]. destruct (IH _ _ eq_refl) as [Hd|(p & Hin & Hp)];
        [now left|right].
      exists p. split; [now right|exact Hp].
Qed.





(** X3.  On a page whose URL is still the original one, the classifier
    answers [True] only on positive evidence: the caller's URL indicator
    occurs in the URL, or a probe whose layer answers [True] (the
    caller's selector, a success pattern) has found an element. *)
Theorem success_on_same_url_needs_evidence
  page original_url success_indicator w w1 evs :
  page_url w page = original_url ->
  _verify_login_success page original_url success_indicator w =
    (Ok true, w1, evs) ->
  url_indicator_matches success_indicator original_url = true \/
  exists pattern,
    In (pattern, true) (classifier_layers success_indicator) /\
    probe_hits w page pattern = true.
Proof.
  intros Hsame R.
  destruct (url_indicator_matches success_indicator original_url) eqn:Hind;
    [now left|right].
  assert (Hurl : url_changed (page_url w page) original_url = false)
    by (rewrite Hsame; apply url_changed_same).
  rewrite <- Hsame in Hind.
  rewrite (verify_as_scan _ _ _ _ Hurl Hind) in R.
  unfold or_else, try_except in R.
  destruct (scan page _ _ w) as [[[b|e] w2] t2] eqn:Hscan.
  - injection R as -> _ _.
    apply scan_true in Hscan as [Hd|Hex]; [|exact Hex].
    rewrite Hsame, String.eqb_refl in Hd. discriminate.
  - cbn in R. discriminate.
Qed.

End ClassifierTable.


(** X3 on an example: the dashboard is the evidence. *)
Lemma success_on_same_url_needs_evidence_witness :
  url_indicator_matches None login_url = true \/
  exists pattern,
    In (pattern, true) (classifier_layers None) /\
    probe_hits (E := scripted) same_url_with_dashboard 7 pattern = true.
Proof.
  eapply (success_on_same_url_needs_evidence (E := scripted) 7 None
            same_url_with_dashboard); reflexivity.
Defined.

(** ** More on one attempt *)

Section AttemptFailures.
Context {E : Env}.

Lemma run_try_raise (A : Type) (body : M A) handler w e w1 t1 r w2 t2 :
  body w = (Raise e, w1, t1) ->
  handler e w1 = (r, w2, t2) ->
  try_except body handler w = (r, w2, t1 ++ t2).
Proof.
  intros Hb Hh. unfold try_except. now rewrite Hb, Hh.
Qed.

Lemma run_bind_raise (A B : Type) (m : M A) (k : A -> M B) w e w1 t1 :
  m w = (Raise e, w1, t1) ->
  bind m k w = (Raise e, w1, t1).
Proof.
  intros Hm. unfold bind. now rewrite Hm.
Qed.




Lemma quiet_on_exception_for P self page target c e :
  (forall p path, P (Did (Screenshot p path)) = true) ->
  quiet P (on_exception self page target c e).
Proof.
  intros HP. unfold on_exception. destruct e as [text|text];
    (apply quiet_bind; [apply quiet_render|intro]);
    (apply quiet_bind; [|intro; apply quiet_LoginResult_init]);
    (destruct page as [p0|]; [|apply quiet_ret]);
    (apply quiet_bind; [now apply quiet_save_screenshot|]);
    intro; apply quiet_ret.
Qed.


(** X5.  When the navigation to the form raises, nothing is typed,
    clicked or pressed during the attempt. *)
Theorem navigation_failure_makes_no_input
  self target c u p cs s ind wait w page w1 e w2 t :
  perform NewPage w = (Ok page, w1) ->
  navigate self page target w1 = (Raise e, w2, t) ->
  forallb no_input (events (attempt_login self target c u p cs s ind wait w))
    = true.
Proof.
  intros Hopen Hnav.
  assert (Qnav : forallb no_input t = true)
    by (eapply quiet_run; [|exact Hnav];
        apply quiet_navigate; intros; reflexivity).
  pose proof (@quiet_on_exception_for no_input self (Some page) target c e
                (fun _ _ => eq_refl) w2) as Qh.
  destruct (on_exception self (Some page) target c e w2)
    as [[rh w3] th] eqn:Rh. cbn in Qh.
  rewrite (attempt_login_opened _ _ _ _ _ _ _ _ _ _ Hopen).
  unfold try_finally.
  erewrite run_try_raise;
    [|unfold attempt_steps; apply run_bind_raise; exact Hnav|exact Rh].
  pose proof (do_call_events (Close page) w3) as Hev.
  destruct (do_call (Close page) w3) as [[[[]|e3] w4] t4];
    cbn in Hev; subst t4; cbn;
    now rewrite !forallb_app, Qnav, Qh.
Qed.

End AttemptFailures.


(** X5 on the same example. *)
Lemma navigation_failure_makes_no_input_witness :
  forallb no_input
    (events (attempt_login (E := scripted) automation0 login_url alice
               None None None None None 3000 slow_site)) = true.
Proof.
  apply (navigation_failure_makes_no_input (E := scripted) automation0
           login_url alice None None None None None 3000 slow_site
           (page := 7) (w1 := slow_site)
           (e := PlaywrightTimeout "Page.goto: Timeout exceeded")
           (w2 := slow_site)
           (t := [Did (SetDefaultTimeout 7 30000); Did (Goto 7 login_url)]));
    reflexivity.
Defined.


Section AttemptVerdict.
Context {E : Env}.





End AttemptVerdict.


(** ** Screenshots and captchas *)






Section Screenshots.
Context {E : Env}.





End Screenshots.



(** ** The statistics of the window *)

(** X9.  The window shows as errors every result that is neither a
    success nor a failure: its error figure is never negative, the three
    figures add up to the total, and the error figure is the error count
    of the summary of [batch_login] plus the number of results whose
    status is CAPTCHA_REQUIRED, which that summary leaves out. *)
Theorem window_counts_captcha_as_error (results : list LoginResult) :
  let '(total, success, failed, errors) := update_statistics results in
  (0 <= errors)%Z /\
  (success + failed + errors = total)%Z /\
  errors =
    (Z.of_nat
       (count_status
          (fun s => existsb (LoginStatus_eqb s)
                      [ERROR; TIMEOUT; ELEMENT_NOT_FOUND]) results) +
     Z.of_nat (count_status (LoginStatus_eqb CAPTCHA_REQUIRED) results))%Z.
Proof.
  unfold update_statistics.
  pose proof (counts_add_up results) as Hsum.
  repeat split; lia.
Qed.

(** ** The credentials and their loaders *)

Lemma string_length_ind (P : string -> Prop) :
  (forall s, (forall t, String.length t < String.length s -> P t) -> P s) ->
  forall s, P s.
Proof.
  intros H s. remember (String.length s) as n eqn:Hn. revert s Hn.
  induction n as [n IH] using lt_wf_ind. intros s ->.
  apply H. intros t Ht. now apply (IH (String.length t)).
Qed.

Ltac by_spaces :=
  repeat match goal with
         | |- context [space1 ?a] => destruct (space1 a) eqn:?
         | |- context [space2 ?a ?b] => destruct (space2 a b) eqn:?
         | |- context [space3 ?a ?b ?c] => destruct (space3 a b c) eqn:?
         end.

Lemma lstrip_fixed s : starts_space s = false -> lstrip s = s.
Proof.
  destruct s as [|a [|b [|c t]]]; cbn; by_spaces; cbn; congruence.
Qed.

Lemma blank_starts_space a t : blank (String a t) = true -> starts_space (String a t) = true.
Proof.
  destruct t as [|b [|c t]]; cbn; by_spaces; cbn; congruence.
Qed.

Lemma starts_space_app s u : starts_space s = true -> starts_space (s ++ u)%string = true.
Proof.
  destruct s as [|a [|b [|c t]]]; cbn; try discriminate.
  - rewrite orb_false_r. now intros ->.
  - rewrite orb_false_r. intros H. destruct (space1 a); [reflexivity|].
    cbn in *. now rewrite H.
  - now intros ->.
Qed.

Lemma lstrip_eq a t :
  lstrip (String a t) =
    if space1 a then lstrip t else
    match t with
    | EmptyString => String a t
    | String b t2 =>
        if space2 a b then lstrip t2 else
        match t2 with
        | EmptyString => String a t
        | String c t3 => if space3 a b c then lstrip t3 else String a t
        end
    end.
Proof. reflexivity. Qed.

Lemma blank_eq a t :
  blank (String a t) =
    if space1 a then blank t else
    match t with
    | EmptyString => false
    | String b t2 =>
        if space2 a b then blank t2 else
        match t2 with
        | EmptyString => false
        | String c t3 => space3 a b c && blank t3
        end
    end.
Proof. reflexivity. Qed.

(** What [lstrip] leaves is empty, when the string is blank, or starts
    with a character that is not whitespace. *)
Lemma lstrip_cases s :
  (blank s = true /\ lstrip s = "") \/
  (blank s = false /\ lstrip s <> "" /\ starts_space (lstrip s) = false).
Proof.
  induction s as [s IH] using string_length_ind.
  destruct s as [|a t]; [now left|].
  rewrite lstrip_eq, blank_eq.
  destruct (space1 a) eqn:H1; [apply IH; cbn; lia|].
  destruct t as [|b t2].
  { right. repeat split; [discriminate|]. cbn. now rewrite H1. }
  destruct (space2 a b) eqn:H2; [apply IH; cbn; lia|].
  destruct t2 as [|c t3].
  { right. repeat split; [discriminate|]. cbn. now rewrite H1, H2. }
  destruct (space3 a b c) eqn:H3; [apply IH; cbn; lia|].
  right. repeat split; [discriminate|]. cbn. now rewrite H1, H2, H3.
Qed.

Lemma blank_app s u : blank s = true -> blank u = true -> blank (s ++ u)%string = true.
Proof.
  intros Hs Hu. induction s as [s IH] using string_length_ind.
  destruct s as [|a t]; [exact Hu|].
  change (String a t ++ u)%string with (String a (t ++ u))%string.
  rewrite blank_eq in Hs |- *.
  destruct (space1 a) eqn:H1; [apply IH; [cbn; lia|exact Hs]|].
  destruct t as [|b t2]; [discriminate|].
  change (String b t2 ++ u)%string with (String b (t2 ++ u))%string.
  cbv beta iota in Hs |- *.
  destruct (space2 a b) eqn:H2; [apply IH; [cbn; lia|exact Hs]|].
  destruct t2 as [|c t3]; [discriminate|].
  change (String c t3 ++ u)%string with (String c (t3 ++ u))%string.
  cbv beta iota in Hs |- *.
  apply andb_prop in Hs as [H3 Hs]. rewrite H3. cbn [andb].
  apply IH; [cbn; lia|exact Hs].
Qed.

(** [rstrip] cuts a blank end off. *)
Lemma rstrip_prefix s : exists u, s = (rstrip s ++ u)%string /\ blank u = true.
Proof.
  induction s as [|a t IH].
  - now exists "".
  - cbn [rstrip]. destruct (blank (String a t)) eqn:Hb.
    + now exists (String a t).
    + destruct IH as (u & Ht & Hu). exists u. split; [|exact Hu].
      cbn [append]. now rewrite <- Ht.
Qed.

Lemma rstrip_blank s : blank s = true -> rstrip s = "".
Proof. destruct s as [|a t]; [reflexivity|]. cbn [rstrip]. now intros ->. Qed.

Lemma rstrip_cons a t :
  blank (String a t) = false -> rstrip (String a t) = String a (rstrip t).
Proof. cbn [rstrip]. now intros ->. Qed.

Lemma blank_rstrip a t :
  blank (String a t) = false -> blank (String a (rstrip t)) = false.
Proof.
  intros Hb. destruct (blank (String a (rstrip t))) eqn:Hr; [|reflexivity].
  destruct (rstrip_prefix t) as (u & Ht & Hu).
  pose proof (@blank_app _ _ Hr Hu) as H. cbn [append] in H.
  rewrite <- Ht in H. congruence.
Qed.

Lemma rstrip_idempotent s : rstrip (rstrip s) = rstrip s.
Proof.
  induction s as [|a t IH]; [reflexivity|].
  destruct (blank (String a t)) eqn:Hb.
  - now rewrite (@rstrip_blank _ Hb).
  - rewrite (@rstrip_cons a t Hb), (@rstrip_cons a _ (@blank_rstrip a t Hb)).
    now rewrite IH.
Qed.

Lemma starts_space_rstrip s :
  starts_space s = false -> starts_space (rstrip s) = false.
Proof.
  intros Hs. destruct (starts_space (rstrip s)) eqn:Hr; [|reflexivity].
  destruct (rstrip_prefix s) as (u & Ht & Hu).
  pose proof (@starts_space_app _ u Hr) as H. rewrite <- Ht in H. congruence.
Qed.

Lemma strip_blank s : nonblank (strip s) = negb (blank s).
Proof.
  unfold strip.
  destruct (lstrip_cases s) as [[Hb ->]|(Hb & Hne & Hs)]; rewrite Hb;
    [reflexivity|].
  destruct (lstrip s) as [|a t]; [congruence|].
  destruct (blank (String a t)) eqn:Hx.
  - apply blank_starts_space in Hx. congruence.
  - now rewrite (@rstrip_cons a t Hx).
Qed.

Lemma lstrip_strip s : lstrip (strip s) = strip s.
Proof.
  unfold strip.
  destruct (lstrip_cases s) as [[_ ->]|(_ & _ & Hs)]; [reflexivity|].
  apply lstrip_fixed. now apply starts_space_rstrip.
Qed.

Lemma rstrip_strip s : rstrip (strip s) = strip s.
Proof. unfold strip. apply rstrip_idempotent. Qed.

Lemma strip_idempotent s : strip (strip s) = strip s.
Proof.
  unfold strip at 1. now rewrite lstrip_strip, rstrip_strip.
Qed.

(** The whitespace characters of two and of three bytes do not start
    with a whitespace character of fewer bytes. *)
Lemma space2_alone a b : space2 a b = true -> space1 a = false.
Proof.
  unfold space2, space1. intros H. apply andb_prop in H as [H _].
  apply Nat.eqb_eq in H. now rewrite H.
Qed.

Lemma space3_alone a b c :
  space3 a b c = true -> space1 a = false /\ space2 a b = false.
Proof.
  destruct a as [[] [] [] [] [] [] [] []]; intros H;
    solve [split; reflexivity | cbn in H; discriminate].
Qed.

(** A whitespace character is a blank string. *)
Lemma isspace_blank ch : isspace ch = true -> blank ch = true.
Proof.
  destruct ch as [|a [|b [|c [|d t]]]]; cbn [isspace]; try discriminate;
    intros H.
  - rewrite blank_eq. now rewrite H.
  - rewrite blank_eq. now rewrite (space2_alone _ _ H), H.
  - rewrite blank_eq. destruct (space3_alone _ _ _ H) as [H1 H2].
    now rewrite H1, H2, H.
Qed.

(** The fields of a credential are the stripped arguments. *)
Lemma Credential_init_strip user pass remark :
  Credential_init user pass remark =
    {| username := strip user; password := strip pass;
       note := strip remark |}.
Proof.
  unfold Credential_init.
  now destruct user, pass, remark.
Qed.

Lemma is_valid_init user pass remark :
  is_valid (Credential_init user pass remark) =
    negb (blank user) && negb (blank pass).
Proof.
  rewrite Credential_init_strip. unfold is_valid. cbn.
  now rewrite !strip_blank.
Qed.

(** X10.  A credential built from a username and a password is valid
    exactly when neither of them is empty or made of whitespace only; the
    note plays no part.  Whitespace is what [str.strip] removes, that is
    the characters of [str.isspace], within ASCII and beyond: each of
    them alone is a blank string. *)
Theorem validity_of_credential user pass remark :
  is_valid (Credential_init user pass remark) =
    negb (blank user) && negb (blank pass) /\
  (forall ch, implb (isspace ch) (blank ch) = true).
Proof.
  split; [apply is_valid_init|].
  intros ch. destruct (isspace ch) eqn:H; [|reflexivity].
  cbn [implb]. now apply isspace_blank.
Qed.

(** X10 on examples: a username that is an ideographic space, or a
    space without break, makes no valid credential, and such spaces at
    the ends of a field are stripped. *)
Example blank_beyond_ascii :
  is_valid (Credential_init "　" "pw" "") = false /\
  is_valid (Credential_init " " "pw" "") = false /\
  Credential_init " 　admin 　" "pw　 " "" =
    {| username := "admin"; password := "pw"; note := "" |}.
Proof. repeat split. Qed.

(** X11.  The fields of a credential have no whitespace at either end:
    stripping them on the left or on the right changes nothing, and
    building a credential again from the fields of a credential gives
    the same credential. *)
Theorem credential_init_idempotent user pass remark :
  let c := Credential_init user pass remark in
  lstrip (username c) = username c /\ rstrip (username c) = username c /\
  lstrip (password c) = password c /\ rstrip (password c) = password c /\
  lstrip (note c) = note c /\ rstrip (note c) = note c /\
  Credential_init (username c) (password c) (note c) = c.
Proof.
  cbn zeta. rewrite !Credential_init_strip. cbn [username password note].
  rewrite !lstrip_strip, !rstrip_strip, !strip_idempotent.
  repeat split.
Qed.

Lemma getitem_map (A B : Type) (f : A -> B) (row : list A) (i : Z) :
  getitem (map f row) i = option_map f (getitem row i).
Proof.
  unfold getitem. rewrite length_map.
  destruct (0 <=? i)%Z; [apply nth_error_map|].
  destruct (- Z.of_nat (length row) <=? i)%Z; [apply nth_error_map|].
  reflexivity.
Qed.

(** A field read from a worksheet is the field read from the CSV file,
    before stripping. *)
Lemma csv_field_of_cells row column :
  csv_field (map cell_text row) column =
    option_map strip (excel_field row column).
Proof.
  unfold csv_field, excel_field. rewrite length_map, getitem_map.
  destruct (column <? Z.of_nat (length row))%Z; [|reflexivity].
  now destruct (getitem row column) as [[text|]|].
Qed.

(** The guard and the construction of the two loops agree, although one
    tests the fields before stripping them and the other after. *)
Lemma guarded_credential acc user pass remark :
  (if nonblank user || nonblank pass then
     if is_valid (Credential_init user pass remark)
     then acc ++ [Credential_init user pass remark] else acc
   else acc) =
  (if nonblank (strip user) || nonblank (strip pass) then
     if is_valid (Credential_init (strip user) (strip pass) (strip remark))
     then acc ++ [Credential_init (strip user) (strip pass) (strip remark)]
     else acc
   else acc).
Proof.
  assert (Hsame :
    Credential_init (strip user) (strip pass) (strip remark) =
    Credential_init user pass remark)
    by (rewrite !Credential_init_strip; now rewrite !strip_idempotent).
  rewrite Hsame, is_valid_init.
  rewrite !strip_blank.
  destruct (blank user) eqn:Hu, (blank pass) eqn:Hp; cbn [negb andb orb];
    try (destruct (nonblank user || nonblank pass); reflexivity).
  destruct user; [discriminate|]. reflexivity.
Qed.

(** A row of a worksheet adds what the same row of a CSV file adds. *)
Lemma excel_row_csv username_column password_column note_column acc row :
  excel_row username_column password_column note_column acc row =
  csv_row username_column password_column note_column acc
    (map cell_text row).
Proof.
  unfold excel_row, csv_row. rewrite !csv_field_of_cells.
  destruct (excel_field row username_column) as [user|]; [|reflexivity].
  destruct (excel_field row password_column) as [pass|]; [|reflexivity].
  cbn [option_map].
  destruct note_column as [column|].
  - rewrite csv_field_of_cells.
    destruct (excel_field row column) as [remark|]; [|reflexivity].
    cbn [option_map]. apply guarded_credential.
  - apply (guarded_credential acc user pass "").
Qed.

Lemma excel_rows_csv username_column password_column note_column rows :
  forall acc,
    fold_left (excel_row username_column password_column note_column)
      rows acc =
    fold_left (csv_row username_column password_column note_column)
      (map (map cell_text) rows) acc.
Proof.
  induction rows as [|row rest IH]; intros acc; [reflexivity|].
  cbn [fold_left map]. now rewrite excel_row_csv, IH.
Qed.

(** A row adds nothing, or one valid credential at the end. *)
Lemma csv_row_step username_column password_column note_column acc row :
  csv_row username_column password_column note_column acc row = acc \/
  exists c,
    csv_row username_column password_column note_column acc row =
      acc ++ [c] /\
    is_valid c = true /\
    strip (username c) = username c /\ strip (password c) = password c.
Proof.
  unfold csv_row.
  destruct (csv_field row username_column) as [user|]; [|now left].
  destruct (csv_field row password_column) as [pass|]; [|now left].
  destruct (match note_column with
            | Some column => csv_field row column
            | None => Some ""
            end) as [remark|]; [|now left].
  destruct (nonblank user || nonblank pass); [|now left].
  destruct (is_valid (Credential_init user pass remark)) eqn:Hv; [|now left].
  right. exists (Credential_init user pass remark).
  split; [reflexivity|]. split; [exact Hv|].
  rewrite Credential_init_strip. cbn [username password].
  now rewrite !strip_idempotent.
Qed.

Lemma csv_rows_valid username_column password_column note_column rows :
  forall acc,
    Forall (fun c => is_valid c = true /\
                     strip (username c) = username c /\
                     strip (password c) = password c) acc ->
    Forall (fun c => is_valid c = true /\
                     strip (username c) = username c /\
                     strip (password c) = password c)
      (fold_left (csv_row username_column password_column note_column)
         rows acc) /\
    length (fold_left (csv_row username_column password_column note_column)
              rows acc) <= length acc + length rows.
Proof.
  induction rows as [|row rest IH]; intros acc Hacc; cbn [fold_left length].
  - split; [exact Hacc|lia].
  - destruct (csv_row_step username_column password_column note_column acc
                row) as [->|(c & -> & Hc)].
    + destruct (IH acc Hacc) as [Hv Hl]. split; [exact Hv|lia].
    + destruct (IH (acc ++ [c])) as [Hv Hl].
      { apply Forall_app. split; [exact Hacc|]. now constructor. }
      split; [exact Hv|]. rewrite length_app in Hl. cbn in Hl. lia.
Qed.

(** X12.  Whatever the file holds, the two loaders only return valid
    credentials, with a username and a password that are not empty and
    carry no whitespace at their ends, and never more of them than the
    rows they read: the rows of the CSV file after its header, the rows
    of the worksheet from the first row read on.  A load that reads the
    rows replaces the credentials kept by the loader with the list it
    returns; a load that fails (no such file, an unreadable file, no such
    sheet, no active sheet) returns the empty list and leaves the loader
    with the credentials of the previous load.  (The messages that the
    loaders log are taken to render.) *)
Theorem loaders_keep_valid_only
  self username_column password_column note_column skip_header :
  (forall file,
     let '(loaded, self') :=
       load_from_csv self file username_column password_column note_column
         skip_header in
     Forall (fun c => is_valid c = true /\
                      strip (username c) = username c /\
                      strip (password c) = password c) loaded /\
     match file with
     | CsvRows rows =>
         length loaded <= length (if skip_header then tl rows else rows) /\
         self' = {| loader_credentials := loaded |}
     | _ => loaded = [] /\ self' = self
     end) /\
  (forall file sheet_name start_row,
     let '(loaded, self') :=
       load_from_excel self file sheet_name username_column password_column
         note_column skip_header start_row in
     Forall (fun c => is_valid c = true /\
                      strip (username c) = username c /\
                      strip (password c) = password c) loaded /\
     match file with
     | ExcelBook wb =>
         match (match nonempty sheet_name with
                | Some name => sheet_named name (sheets wb)
                | None => active wb
                end) with
         | Some ws =>
             length loaded <=
               length (iter_rows ws
                         (start_row + (if skip_header then 1 else 0))) /\
             self' = {| loader_credentials := loaded |}
         | None => loaded = [] /\ self' = self
         end
     | _ => loaded = [] /\ self' = self
     end).
Proof.
  split.
  - intros [| |rows]; cbn; try (repeat split; constructor).
    destruct (csv_rows_valid username_column password_column note_column
                (if skip_header then tl rows else rows) (acc := []))
      as [Hv Hl]; [constructor|].
    split; [exact Hv|]. split; [exact Hl|reflexivity].
  - intros [| |wb] sheet_name start_row; cbn;
      try (repeat split; constructor).
    destruct (match nonempty sheet_name with
              | Some name => sheet_named name (sheets wb)
              | None => active wb
              end) as [ws|]; [|repeat split; constructor].
    rewrite excel_rows_csv.
    destruct (csv_rows_valid username_column password_column note_column
                (map (map cell_text)
                   (iter_rows ws
                      (start_row + (if skip_header then 1 else 0))))
                (acc := [])) as [Hv Hl]; [constructor|].
    rewrite length_map in Hl.
    split; [exact Hv|]. split; [exact Hl|reflexivity].
Qed.

(** X12 on an example: the table of three rows, as a CSV file and as a
    worksheet; the row without a username is left out, and a sheet that
    the workbook does not have leaves the loader as it was. *)
Example loaders_on_the_table :
  load_from_csv fresh_loader (CsvRows table_rows) 0 1 (Some 2%Z) true =
    ([ {| username := "alice"; password := "hunter2"; note := "admin" |};
       {| username := "bob"; password := "s3cret"; note := "" |} ],
     {| loader_credentials :=
          [ {| username := "alice"; password := "hunter2"; note := "admin" |};
            {| username := "bob"; password := "s3cret"; note := "" |} ] |}) /\
  load_from_excel fresh_loader (ExcelBook table_book) (Some "Sheet9") 0 1
    (Some 2%Z) true 1 = ([], fresh_loader).
Proof. split; reflexivity. Qed.

(** X13.  The two loaders agree: from a worksheet whose rows, from the
    first row read on, hold the texts that the rows of a CSV file hold
    after its header, [load_from_excel] returns the credentials that
    [load_from_csv] returns, and leaves the loader in the same state;
    an empty cell stands for an empty field. *)
Theorem excel_agrees_with_csv
  self wb sheet_name ws username_column password_column note_column
  (skip_header : bool) (start_row : Z) rows :
  match nonempty sheet_name with
  | Some name => sheet_named name (sheets wb)
  | None => active wb
  end = Some ws ->
  map (map cell_text)
    (iter_rows ws (start_row + (if skip_header then 1 else 0))) =
    (if skip_header then tl rows else rows) ->
  load_from_excel self (ExcelBook wb) sheet_name username_column
    password_column note_column skip_header start_row =
  load_from_csv self (CsvRows rows) username_column password_column
    note_column skip_header.
Proof.
  intros Hsheet Hrows. unfold load_from_excel, load_from_csv.
  rewrite Hsheet. cbn zeta. now rewrite excel_rows_csv, Hrows.
Qed.

(** X13 on an example: the same table as a worksheet and as a CSV file;
    both give the credentials of alice and bob, stripped. *)
Lemma excel_agrees_with_csv_witness :
  load_from_excel fresh_loader (ExcelBook table_book) (Some "Sheet1") 0 1
    (Some 2%Z) true 1 =
  load_from_csv fresh_loader (CsvRows table_rows) 0 1 (Some 2%Z) true /\
  fst (load_from_csv fresh_loader (CsvRows table_rows) 0 1 (Some 2%Z) true) =
    [ {| username := "alice"; password := "hunter2"; note := "admin" |};
      {| username := "bob"; password := "s3cret"; note := "" |} ].
Proof.
  split; [|reflexivity].
  apply excel_agrees_with_csv with (ws := table_sheet); reflexivity.
Defined.

(** ** The browser session *)

Section SessionClaims.
Context {P : Playwright}.


(** X15.  [stop] after [start], on a fresh object, when the releases
    themselves do not raise: after a start that succeeded, the context
    and the browser are closed and the manager is left; after a start
    that failed on the creation of the context, the browser is closed and
    the manager is left; after a start that failed earlier, also on
    entering the manager, the manager is left and nothing else is
    touched. *)
Theorem stop_after_start browser_type headless d :
  (forall c d0, In c [CloseContext; CloseBrowser; ExitPlaywright] ->
     exists d1, drive c d0 = (Ok tt, d1)) ->
  let '(r, self, d1, acquired) := start browser_type headless new_session d in
  let '(_, _, released) := stop self d1 in
  released = releases self /\
  released = match r, last acquired EnterPlaywright with
             | Ok _, _ => [CloseContext; CloseBrowser; ExitPlaywright]
             | Raise _, NewContext => [CloseBrowser; ExitPlaywright]
             | Raise _, _ => [ExitPlaywright]
             end.
Proof.
  intros Hall. unfold start, new_session. cbn [playwright browser context].
  assert (Hc : forall d0, exists d1, drive CloseContext d0 = (Ok tt, d1))
    by (intros d0; apply Hall; cbn; tauto).
  assert (Hb : forall d0, exists d1, drive CloseBrowser d0 = (Ok tt, d1))
    by (intros d0; apply Hall; cbn; tauto).
  assert (Hm : forall d0, exists d1, drive ExitPlaywright d0 = (Ok tt, d1))
    by (intros d0; apply Hall; cbn; tauto).
  destruct (drive EnterPlaywright d) as [[[]|e1] d1].
  2:{ unfold stop, stop_body, releases. cbn.
      destruct (Hm d1) as [d2 ->]. now split. }
  destruct (drive (Launch browser_type headless) d1) as [[[]|e2] d2].
  2:{ unfold stop, stop_body, releases. cbn.
      destruct (Hm d2) as [d3 ->]. now split. }
  destruct (drive NewContext d2) as [[[]|e3] d3].
  - unfold stop, stop_body, releases. cbn.
    destruct (Hc d3) as [d4 ->]. destruct (Hb d4) as [d5 ->].
    destruct (Hm d5) as [d6 ->]. now split.
  - unfold stop, stop_body, releases. cbn.
    destruct (Hb d3) as [d4 ->]. destruct (Hm d4) as [d5 ->]. now split.
Qed.

End SessionClaims.


(** X15 on an example: the context cannot be created. *)
Lemma stop_after_start_witness :
  let '(r, self, d1, acquired) :=
    start (P := failing_on [NewContext] same_call) CHROMIUM false
      new_session tt in
  let '(_, _, released) :=
    stop (P := failing_on [NewContext] same_call) self d1 in
  released = releases self /\
  released = match r, last acquired EnterPlaywright with
             | Ok _, _ => [CloseContext; CloseBrowser; ExitPlaywright]
             | Raise _, NewContext => [CloseBrowser; ExitPlaywright]
             | Raise _, _ => [ExitPlaywright]
             end.
Proof.
  apply (stop_after_start (P := failing_on [NewContext] same_call)
           CHROMIUM false tt).
  intros c [] Hin. exists tt. cbn in Hin.
  destruct Hin as [<-|[<-|[<-|[]]]]; reflexivity.
Defined.

(** ** Explicit selectors *)

Section ExplicitSelectors.
Context {E : Env}.













End ExplicitSelectors.

